(** * Metrics registry, metric sets and metric primitives

    A shallow embedding of [elasticapm/metrics/base_metrics.py]:
    the [Counter], [Gauge] and [NoopMetric] primitives, the labelled
    [MetricsSet] storage with its [collect] generator, and the
    [MetricsRegistry] with [register] and [collect].

    Conventions of the embedding.
    - Python objects that are shared and compared with [is] live in a
      store ([heap]); a reference is a [handle].  The module-level singleton
      [noop_metric] is a handle of its own.
    - A Python [dict] is an insertion-ordered association list ([dict]),
      iterated in insertion order as CPython does.
    - Numbers are integers ([Z]); a value that may be [None] is an [option].
      Where the kind of number matters, the counter is also given with
      floating-point values ([FloatCounter]).
    - A call that may raise returns a [result]; state is passed explicitly.
    - Locks are not modelled: every method body that runs under a lock is
      one atomic state transformer. *)

From Stdlib Require Import ZArith String List Lia Permutation PrimFloat.
From stdpp Require Import base tactics option list strings sorting pretty.

Local Open Scope string_scope.
Local Open Scope list_scope.
Local Open Scope Z_scope.

(** ** Exceptions and results *)

Inductive exn : Type :=
  | ImportError (msg : string)
  | AttributeError (msg : string)
  | Exception (msg : string).

(** [compat.text_type(e)] of an exception is its message. *)
Definition exn_text (e : exn) : string :=
  match e with
  | ImportError m | AttributeError m | Exception m => m
  end.

Inductive result (A : Type) : Type :=
  | Ok (a : A)
  | Raise (e : exn).
Arguments Ok {A} a.
Arguments Raise {A} e.

(** ** Python values used as label values, and [compat.text_type] *)

Inductive pyval : Type :=
  | PStr (s : string)
  | PInt (z : Z)
  | PBool (b : bool)
  | PNone.

Definition text_type (v : pyval) : string :=
  match v with
  | PStr s => s
  | PInt z => pretty z
  | PBool true => "True"
  | PBool false => "False"
  | PNone => "None"
  end.

(** ** Insertion-ordered dictionaries *)

Abbreviation dict K V := (list (K * V)).

Section Dict.
Context {K V : Type} `{EqDecision K}.

(** [d.get(k)] *)
Fixpoint dict_get (k : K) (d : dict K V) : option V :=
  match d with
  | [] => None
  | (k', v) :: d' => if decide (k = k') then Some v else dict_get k d'
  end.

(** [d[k] = v]: an existing key keeps its position, a new key goes last. *)
Fixpoint dict_set (k : K) (v : V) (d : dict K V) : dict K V :=
  match d with
  | [] => [(k, v)]
  | (k', v') :: d' =>
      if decide (k = k') then (k, v) :: d' else (k', v') :: dict_set k v d'
  end.

(** [k in d] *)
Definition dict_mem (k : K) (d : dict K V) : bool :=
  match dict_get k d with Some _ => true | None => false end.

Definition dict_keys (d : dict K V) : list K := fst <$> d.
End Dict.

(** ** References and return values *)

(** A reference to a metric: the singleton [noop_metric] or a stored object. *)
Inductive handle : Type :=
  | noop_metric
  | Ref (l : nat).

Global Instance handle_eq_dec : EqDecision handle.
Proof. solve_decision. Defined.

(** [h is not noop_metric] *)
Definition is_not_noop (h : handle) : bool :=
  match h with noop_metric => false | Ref _ => true end.

(** What a method call evaluates to: [None] or an object. *)
Inductive retval : Type :=
  | RetNone
  | RetObj (h : handle).

(** ** Metric primitives *)

Module Counter.
Record t : Type := mk { label : string; _initial_value : Z; _val : Z }.

(** [self._val = self._initial_value = initial_value] *)
Definition __init__ (label : string) (initial_value : Z) : t :=
  mk label initial_value initial_value.

(** [self._val += delta] *)
Definition inc (self : t) (delta : Z) : t :=
  mk (label self) (_initial_value self) (_val self + delta).

(** [self._val -= delta] *)
Definition dec (self : t) (delta : Z) : t :=
  mk (label self) (_initial_value self) (_val self - delta).

(** [self._val = self._initial_value] *)
Definition reset (self : t) : t :=
  mk (label self) (_initial_value self) (_initial_value self).

Definition val (self : t) : Z := _val self.
End Counter.

(** [Counter] when its values and deltas are floats (IEEE 754 binary64, as
    Python's [float]): the same methods, with the float operations. *)
Module FloatCounter.
Record t : Type := mk { label : string; _initial_value : float; _val : float }.

Definition __init__ (label : string) (initial_value : float) : t :=
  mk label initial_value initial_value.

(** [self._val += delta] *)
Definition inc (self : t) (delta : float) : t :=
  mk (label self) (_initial_value self) (_val self + delta)%float.

(** [self._val -= delta] *)
Definition dec (self : t) (delta : float) : t :=
  mk (label self) (_initial_value self) (_val self - delta)%float.

Definition reset (self : t) : t :=
  mk (label self) (_initial_value self) (_initial_value self).

Definition val (self : t) : float := _val self.
End FloatCounter.

Module Gauge.
Record t : Type := mk { label : string; _val : option Z }.

Definition __init__ (label : string) : t := mk label None.

Definition val (self : t) : option Z := _val self.

Definition set_val (self : t) (value : option Z) : t := mk (label self) value.
End Gauge.

(** "A no-op metric that implements the interface of both Counter and
    Gauge": it has no fields, and every method body is a bare [return]. *)
Module NoopMetric.
Definition val : option Z := None.
Definition set_val (value : option Z) : unit := tt.
Definition inc (delta : Z) : retval := RetNone.
Definition dec (delta : Z) : retval := RetNone.
Definition reset : retval := RetNone.
End NoopMetric.

(** ** The store of metric objects *)

Inductive obj : Type :=
  | OCounter (c : Counter.t)
  | OGauge (g : Gauge.t).

Abbreviation heap := (list obj).

(** Allocation of a new object: it gets the next free location. *)
Definition alloc (o : obj) (σ : heap) : handle * heap :=
  (Ref (length σ), σ ++ [o]).

(** Method calls on a reference, dispatched on the object it designates.
    [NoopMetric]'s methods are bare [return]s: they evaluate to [None] and
    touch nothing.  A method the object's class does not define raises
    [AttributeError]. *)

Definition no_attr (name : string) : exn :=
  AttributeError ("object has no attribute " +:+ name).

Definition inc (self : handle) (delta : Z) (σ : heap) : result retval * heap :=
  match self with
  | noop_metric => (Ok (NoopMetric.inc delta), σ)
  | Ref l =>
      match σ !! l with
      | Some (OCounter c) => (Ok (RetObj self), <[l := OCounter (Counter.inc c delta)]> σ)
      | _ => (Raise (no_attr "inc"), σ)
      end
  end.

Definition dec (self : handle) (delta : Z) (σ : heap) : result retval * heap :=
  match self with
  | noop_metric => (Ok (NoopMetric.dec delta), σ)
  | Ref l =>
      match σ !! l with
      | Some (OCounter c) => (Ok (RetObj self), <[l := OCounter (Counter.dec c delta)]> σ)
      | _ => (Raise (no_attr "dec"), σ)
      end
  end.

Definition reset (self : handle) (σ : heap) : result retval * heap :=
  match self with
  | noop_metric => (Ok NoopMetric.reset, σ)
  | Ref l =>
      match σ !! l with
      | Some (OCounter c) => (Ok (RetObj self), <[l := OCounter (Counter.reset c)]> σ)
      | _ => (Raise (no_attr "reset"), σ)
      end
  end.

(** The [val] property read: [None] for [noop_metric] and for a gauge that
    was never set.  A reference always designates a stored object; a
    location outside the store reads as [None]. *)
Definition val (self : handle) (σ : heap) : option Z :=
  match self with
  | noop_metric => NoopMetric.val
  | Ref l =>
      match σ !! l with
      | Some (OCounter c) => Some (Counter.val c)
      | Some (OGauge g) => Gauge.val g
      | None => None
      end
  end.

(** The [val] property write: [Counter.val] has no setter. *)
Definition set_val (self : handle) (value : option Z) (σ : heap) : result unit * heap :=
  match self with
  | noop_metric => (Ok (NoopMetric.set_val value), σ)
  | Ref l =>
      match σ !! l with
      | Some (OGauge g) => (Ok tt, <[l := OGauge (Gauge.set_val g value)]> σ)
      | _ => (Raise (AttributeError "can't set attribute"), σ)
      end
  end.

(** ** Metric sets *)

(** A compiled ignore pattern; the code only uses the truth value of
    [pattern.match(name)]. *)
Record pattern : Type := { pattern_match : string → bool }.

(** One entry [{"value": v}] of a record's [samples]. *)
Record sample : Type := mk_sample { value : option Z }.

(** A yielded record [{"samples": ..., "timestamp": ..., "tags": ...}];
    [tags = None] when the key is absent from the record. *)
Record record : Type := mk_record {
  samples : dict string sample;
  timestamp : Z;
  tags : option (dict string string)
}.

(** The clock: [clock n] is the n-th reading of
    [int(time.time() * 1000000)] in the run. *)
Definition clock : Type := nat → Z.

(** A label key: the sorted [(label, text)] pairs; a metric key: the
    metric name and a label key. *)
Abbreviation labelkey := (list (string * string)).
Abbreviation key := (string * labelkey)%type.

(** The [samples] defaultdict of [collect]: label key to name to sample. *)
Abbreviation groups := (dict labelkey (dict string sample)).

Module MetricsSet.

Record t : Type := mk {
  _counters : dict key handle;
  _gauges : dict key handle
}.

Definition __init__ : t := mk [] [].

(** The order [sorted] uses on the items of the labels mapping.  Items
    are [(k, v)] tuples; the keys of a mapping are pairwise distinct, so
    the comparison of two items is decided by their keys. *)
Definition item_le (p q : string * pyval) : Prop := (p.1 ≤ q.1)%string.

Global Instance item_le_dec : RelDecision item_le.
Proof. intros p q. unfold item_le. apply _. Defined.

Definition sorted (items : list (string * pyval)) : list (string * pyval) :=
  merge_sort item_le items.

(** [tuple((k, text_type(v)) for k, v in sorted(iteritems(labels)))] *)
Definition _labels_to_key (labels : dict string pyval) : labelkey :=
  (λ kv, (kv.1, text_type kv.2)) <$> sorted labels.

(** [self._registry._ignore_patterns and any(pattern.match(name) for ...)] *)
Definition ignored (ignore_patterns : list pattern) (name : string) : bool :=
  match ignore_patterns with
  | [] => false
  | _ => existsb (λ p, pattern_match p name) ignore_patterns
  end.

(** [counter(name, **labels)]; [ignore_patterns] is
    [self._registry._ignore_patterns]. *)
Definition counter (ignore_patterns : list pattern) (self : t)
    (name : string) (labels : dict string pyval) (σ : heap) : handle * t * heap :=
  let labels := _labels_to_key labels in
  let key := (name, labels) in
  match dict_get key (_counters self) with
  | Some c => (c, self, σ)
  | None =>
      let '(counter, σ') :=
        if ignored ignore_patterns name then (noop_metric, σ)
        else alloc (OCounter (Counter.__init__ name 0)) σ in
      (counter, mk (dict_set key counter (_counters self)) (_gauges self), σ')
  end.

Definition gauge (ignore_patterns : list pattern) (self : t)
    (name : string) (labels : dict string pyval) (σ : heap) : handle * t * heap :=
  let labels := _labels_to_key labels in
  let key := (name, labels) in
  match dict_get key (_gauges self) with
  | Some g => (g, self, σ)
  | None =>
      let '(gauge, σ') :=
        if ignored ignore_patterns name then (noop_metric, σ)
        else alloc (OGauge (Gauge.__init__ name)) σ in
      (gauge, mk (_counters self) (dict_set key gauge (_gauges self)), σ')
  end.

(** One iteration of either loop of [collect]:
    [if m is not noop_metric: samples[labels].update({name: {"value": m.val}})] *)
Definition add_sample (σ : heap) (samples : groups) (item : key * handle) : groups :=
  let '((name, labels), m) := item in
  if is_not_noop m then
    dict_set labels
      (dict_set name (mk_sample (val m σ)) (default [] (dict_get labels samples)))
      samples
  else samples.

Definition collect_samples (self : t) (σ : heap) : groups :=
  fold_left (add_sample σ) (_gauges self)
    (fold_left (add_sample σ) (_counters self) []).

(** [{k: v for k, v in labels}] *)
Definition make_tags (labels : labelkey) : dict string string :=
  fold_left (λ d kv, dict_set kv.1 kv.2 d) labels [].

(** The record yielded for one group. *)
Definition make_result (timestamp : Z) (group : labelkey * dict string sample) : record :=
  mk_record group.2 timestamp
    (match group.1 with [] => None | _ => Some (make_tags group.1) end).

(** The hook [before_collect], which subclasses override; it may change
    the set and the store, and it may raise. *)
Definition hook : Type := list pattern → t → heap → result unit * t * heap.

(** [MetricsSet.before_collect]: [pass]. *)
Definition before_collect : hook := λ _ self σ, (Ok tt, self, σ).

(** [collect()], run to exhaustion: the records the generator yields, or
    the exception it raises.  Everything before the first [yield] runs at
    the first [next]: the hook, one reading of the clock, and the
    grouping.  [n] is the number of clock readings so far. *)
Definition collect (before_collect : hook) (ignore_patterns : list pattern)
    (self : t) (σ : heap) (time : clock) (n : nat)
    : result (list record) * t * heap * nat :=
  match before_collect ignore_patterns self σ with
  | (Raise e, self', σ') => (Raise e, self', σ', n)
  | (Ok _, self', σ') =>
      let timestamp := time n in
      (Ok (make_result timestamp <$> collect_samples self' σ'), self', σ', S n)
  end.
End MetricsSet.

(** ** The registry *)

(** A metric-set class, as [import_string] returns it: its constructor
    [class_obj(registry)] and its [before_collect]. *)
Record MetricsSetClass : Type := {
  cls_init : list pattern → heap → result MetricsSet.t * heap;
  cls_before_collect : MetricsSet.hook
}.

(** The base class [MetricsSet] itself. *)
Definition MetricsSet_class : MetricsSetClass :=
  {| cls_init := λ _ σ, (Ok MetricsSet.__init__, σ);
     cls_before_collect := MetricsSet.before_collect |}.

(** An instance of a metric-set class. *)
Record MetricsSetObj : Type := mk_obj {
  ms_class : MetricsSetClass;
  ms_self : MetricsSet.t
}.

Inductive level : Type := DEBUG | WARNING.

(** Modelled from the spec: the constant [constants.METRICSET] of
    [elasticapm.conf], the event kind "metricset". *)
Definition METRICSET : string := "metricset".

(** What the registry's methods act on besides the registry itself: the
    store, the clock readings used, the records of [logger], and the calls
    [queue_func] has received, oldest first. *)
Record world : Type := mk_world {
  w_heap : heap;
  w_ticks : nat;
  w_log : list (level * string);
  w_queue : list (string * record)
}.

Definition set_heap (σ : heap) (w : world) : world :=
  mk_world σ (w_ticks w) (w_log w) (w_queue w).
Definition set_ticks (n : nat) (w : world) : world :=
  mk_world (w_heap w) n (w_log w) (w_queue w).
Definition logger (lv : level) (msg : string) (w : world) : world :=
  mk_world (w_heap w) (w_ticks w) (w_log w ++ [(lv, msg)]) (w_queue w).

Module MetricsRegistry.
Record t : Type := mk {
  _metricsets : dict string MetricsSetObj;
  _tags : dict string string;
  _ignore_patterns : list pattern
}.

(** [__init__], without the collect timer. *)
Definition __init__ (tags : option (dict string string))
    (ignore_patterns : option (list pattern)) : t :=
  mk [] (default [] tags) (default [] ignore_patterns).

Definition set_metricsets (m : dict string MetricsSetObj) (self : t) : t :=
  mk m (_tags self) (_ignore_patterns self).

(** [self._queue_func(kind, data)] *)
Definition _queue_func (kind : string) (data : record) (w : world) : world :=
  mk_world (w_heap w) (w_ticks w) (w_log w) (w_queue w ++ [(kind, data)]).

(** The body of the [try] in [register]. *)
Definition register_try (import_string : string → result MetricsSetClass)
    (self : t) (class_path : string) (w : world) : result unit * t * world :=
  match import_string class_path with
  | Raise e => (Raise e, self, w)
  | Ok class_obj =>
      match cls_init class_obj (_ignore_patterns self) (w_heap w) with
      | (Raise e, σ') => (Raise e, self, set_heap σ' w)
      | (Ok ms, σ') =>
          (Ok tt,
           set_metricsets (dict_set class_path (mk_obj class_obj ms) (_metricsets self)) self,
           set_heap σ' w)
      end
  end.

Definition register (import_string : string → result MetricsSetClass)
    (self : t) (class_path : string) (w : world) : result unit * t * world :=
  if dict_mem class_path (_metricsets self) then (Ok tt, self, w)
  else
    match register_try import_string self class_path w with
    | (Raise (ImportError msg), self', w') =>
        (Ok tt, self',
         logger WARNING
           ("Could not register " +:+ class_path +:+ " metricset: " +:+ msg) w')
    | r => r
    end.

(** [for data in records: self._queue_func(constants.METRICSET, data)] *)
Definition forward (records : list record) (w : world) : world :=
  fold_left (λ w data, _queue_func METRICSET data w) records w.

(** The loop of [collect] over the items of [self._metricsets]; the
    instances are returned as the hooks left them. *)
Fixpoint collect_loop (time : clock) (ignore_patterns : list pattern)
    (items : dict string MetricsSetObj) (w : world)
    : result unit * dict string MetricsSetObj * world :=
  match items with
  | [] => (Ok tt, [], w)
  | (name, metricset) :: rest =>
      match MetricsSet.collect (cls_before_collect (ms_class metricset))
              ignore_patterns (ms_self metricset) (w_heap w) time (w_ticks w) with
      | (Raise e, self', σ', n') =>
          (Raise e, (name, mk_obj (ms_class metricset) self') :: rest,
           set_ticks n' (set_heap σ' w))
      | (Ok records, self', σ', n') =>
          let '(r, rest', w') :=
            collect_loop time ignore_patterns rest
              (forward records (set_ticks n' (set_heap σ' w))) in
          (r, (name, mk_obj (ms_class metricset) self') :: rest', w')
      end
  end.

Definition collect (time : clock) (self : t) (w : world) : result unit * t * world :=
  let w := logger DEBUG "Collecting metrics" w in
  let '(r, sets, w') := collect_loop time (_ignore_patterns self) (_metricsets self) w in
  (r, set_metricsets sets self, w').
End MetricsRegistry.

(** ** Clients, reachable sets and the vocabulary of the properties *)

(** A call a client makes on a counter. *)
Inductive op : Type :=
  | Inc (delta : Z)
  | Dec (delta : Z).

(** [h.inc(delta)] or [h.dec(delta)] on the store. *)
Definition exec (h : handle) (o : op) (σ : heap) : result retval * heap :=
  match o with
  | Inc delta => inc h delta σ
  | Dec delta => dec h delta σ
  end.

(** The calls of [ops], one after the other, on the same reference. *)
Definition run_ops (h : handle) (ops : list op) (σ : heap) : heap :=
  fold_left (λ σ o, (exec h o σ).2) ops σ.

Definition apply_op (c : Counter.t) (o : op) : Counter.t :=
  match o with
  | Inc delta => Counter.inc c delta
  | Dec delta => Counter.dec c delta
  end.

Definition sum_inc (ops : list op) : Z :=
  fold_right (λ o acc, match o with Inc d => d + acc | Dec _ => acc end) 0 ops.
Definition sum_dec (ops : list op) : Z :=
  fold_right (λ o acc, match o with Dec d => d + acc | Inc _ => acc end) 0 ops.

(** The same calls with float deltas, on a counter with float values. *)
Inductive float_op : Type :=
  | FInc (delta : float)
  | FDec (delta : float).

Definition apply_float_op (c : FloatCounter.t) (o : float_op) : FloatCounter.t :=
  match o with
  | FInc delta => FloatCounter.inc c delta
  | FDec delta => FloatCounter.dec c delta
  end.

(** Concurrent callers of one counter.  Each caller has a list of calls
    left to make on the shared reference [h]; a step runs the next call of
    any one caller.  The body of [inc] and [dec] runs under the counter's
    lock, so a call is one step. *)
Inductive interleaving (h : handle) : list (list op) → heap → heap → Prop :=
  | interleaving_done callers σ :
      Forall (λ p, p = []) callers → interleaving h callers σ σ
  | interleaving_step callers i o rest σ σ' :
      callers !! i = Some (o :: rest) →
      interleaving h (<[i := rest]> callers) (exec h o σ).2 σ' →
      interleaving h callers σ σ'.

(** The net amount the callers add: increments minus decrements. *)
Definition net (callers : list (list op)) : Z :=
  fold_right (λ p acc, sum_inc p - sum_dec p + acc) 0 callers.

(** A write a client makes on a metric. *)
Inductive mutator : Type :=
  | MInc (delta : Z)
  | MDec (delta : Z)
  | MReset
  | MSet (value : option Z).

Definition mutate (h : handle) (m : mutator) (σ : heap) : heap :=
  match m with
  | MInc delta => (inc h delta σ).2
  | MDec delta => (dec h delta σ).2
  | MReset => (reset h σ).2
  | MSet value => (set_val h value σ).2
  end.

Definition run_mutators (h : handle) (ms : list mutator) (σ : heap) : heap :=
  fold_left (λ σ m, mutate h m σ) ms σ.

(** The metric sets a registry with ignore patterns [pats] can hold: a set
    starts empty and is filled by [counter] and [gauge] calls. *)
Inductive built_by (pats : list pattern) : MetricsSet.t → Prop :=
  | built_init : built_by pats MetricsSet.__init__
  | built_counter self name labels (σ : heap) :
      built_by pats self →
      built_by pats (MetricsSet.counter pats self name labels σ).1.2
  | built_gauge self name labels (σ : heap) :
      built_by pats self →
      built_by pats (MetricsSet.gauge pats self name labels σ).1.2.

(** Every entry stored under an ignored name is the no-op metric. *)
Definition ignored_are_noop (pats : list pattern) (d : dict key handle) : Prop :=
  ∀ k h, dict_get k d = Some h → MetricsSet.ignored pats k.1 = true → h = noop_metric.

(** The set without its no-op entries. *)
Definition without_noop (self : MetricsSet.t) : MetricsSet.t :=
  MetricsSet.mk
    (filter (λ e, is_not_noop e.2 = true) (MetricsSet._counters self))
    (filter (λ e, is_not_noop e.2 = true) (MetricsSet._gauges self)).

(** Where a sample of a group comes from: a stored entry that is not the
    no-op metric, read at collection time. *)
Definition sourced (σ : heap) (entries : dict key handle) (samples : groups) : Prop :=
  ∀ lk group name s, (lk, group) ∈ samples → (name, s) ∈ group →
    ∃ h, ((name, lk), h) ∈ entries ∧ h ≠ noop_metric ∧ s = mk_sample (val h σ).

(** [samples[lk][name]], when present. *)
Definition group_sample (samples : groups) (lk : labelkey) (name : string) : option sample :=
  dict_get lk samples ≫= dict_get name.

(** The groups, and the samples of each group, have one entry per key. *)
Definition groups_wf (samples : groups) : Prop :=
  NoDup (dict_keys samples) ∧ Forall (λ g, NoDup (dict_keys g.2)) samples.

(** Resolution or instantiation of [class_path] fails with [e]: either
    [import_string] raises [e], or it returns a class whose constructor,
    called with the registry, raises [e]. *)
Definition fails_with (import_string : string → result MetricsSetClass)
    (self : MetricsRegistry.t) (class_path : string) (w : world) (e : exn) : Prop :=
  import_string class_path = Raise e ∨
  ∃ class_obj, import_string class_path = Ok class_obj ∧
    (cls_init class_obj (MetricsRegistry._ignore_patterns self) (w_heap w)).1 = Raise e.

(** ** Vocabulary of the further properties *)

(** The class of a stored object: [true] for a [Counter]. *)
Definition is_counter (o : obj) : bool :=
  match o with OCounter _ => true | OGauge _ => false end.

(** The values a list of writes assigns to [val], in order. *)
Definition assigned (ms : list mutator) : list (option Z) :=
  omap (λ m, match m with MSet value => Some value | _ => None end) ms.

(** What a write does when its target is a [Counter]: a value assignment
    raises and changes nothing. *)
Definition counter_write (c : Counter.t) (m : mutator) : Counter.t :=
  match m with
  | MInc delta => Counter.inc c delta
  | MDec delta => Counter.dec c delta
  | MReset => Counter.reset c
  | MSet _ => c
  end.

(** What a write does when its target is a [Gauge]: [inc], [dec] and
    [reset] raise and change nothing. *)
Definition gauge_write (g : Gauge.t) (m : mutator) : Gauge.t :=
  match m with
  | MSet value => Gauge.set_val g value
  | _ => g
  end.

(** The class and the label of a stored object. *)
Definition describe (o : obj) : bool * string :=
  match o with
  | OCounter c => (true, Counter.label c)
  | OGauge g => (false, Gauge.label g)
  end.

(** The locations the entries of one map of a metric set refer to. *)
Definition refs_of (d : dict key handle) : list nat :=
  omap (λ e, match e.2 with Ref l => Some l | noop_metric => None end) d.

(** Every reference stored in [d] designates an object of the class
    [counter] ([true] for [Counter], [false] for [Gauge]) whose label is the
    name of the entry. *)
Definition typed (counter : bool) (d : dict key handle) (σ : heap) : Prop :=
  ∀ name lk l, ((name, lk), Ref l) ∈ d → describe <$> σ !! l = Some (counter, name).

(** A metric set that fits the store: each map has one entry per key, no
    object is stored under two keys, counters are [Counter]s and gauges are
    [Gauge]s, labelled with their names. *)
Definition consistent (self : MetricsSet.t) (σ : heap) : Prop :=
  NoDup (dict_keys (MetricsSet._counters self)) ∧
  NoDup (dict_keys (MetricsSet._gauges self)) ∧
  NoDup (refs_of (MetricsSet._counters self)) ∧
  NoDup (refs_of (MetricsSet._gauges self)) ∧
  typed true (MetricsSet._counters self) σ ∧
  typed false (MetricsSet._gauges self) σ.

(** Every entry stored under a name that is not ignored is a real metric. *)
Definition others_are_real (pats : list pattern) (d : dict key handle) : Prop :=
  ∀ k h, dict_get k d = Some h → MetricsSet.ignored pats k.1 = false → h ≠ noop_metric.

(** A label item as it enters the key: the name and the text of the value. *)
Definition as_text (kv : string * pyval) : string * string := (kv.1, text_type kv.2).

(** The order of the pairs of a label key. *)
Definition pair_le (p q : string * string) : Prop := (p.1 ≤ q.1)%string.

(** The [tags] a record gets for the label key [lk]. *)
Definition tags_for (lk : labelkey) : option (dict string string) :=
  match lk with [] => None | _ => Some (MetricsSet.make_tags lk) end.

(** The events one metric set of the base class contributes to a cycle in
    which it reads [timestamp] from the clock. *)
Definition events_of (timestamp : Z) (σ : heap) (item : string * MetricsSetObj)
    : list (string * record) :=
  (λ r, (METRICSET, r)) <$>
    (MetricsSet.make_result timestamp <$> MetricsSet.collect_samples (ms_self item.2) σ).

(** The metric set does not override [before_collect]. *)
Definition plain (item : string * MetricsSetObj) : Prop :=
  cls_before_collect (ms_class item.2) = MetricsSet.before_collect.


(** ** The collect timer *)

(** Modelled from the spec: the collaborator [IntervalTimer] of
    [elasticapm.utils.threading], through its minimal contract: it is
    constructed (not running) with the function to call, an interval in
    seconds, a name and a daemon flag; [start()] starts it and [cancel()]
    prevents further firings.  The function is always the registry's
    [collect]. *)
Record IntervalTimer : Type := mk_timer {
  it_interval : Z;
  it_name : string;
  it_daemon : bool;
  it_started : bool;
  it_cancelled : bool
}.

Definition timer_start (t : IntervalTimer) : IntervalTimer :=
  mk_timer (it_interval t) (it_name t) (it_daemon t) true (it_cancelled t).
Definition timer_cancel (t : IntervalTimer) : IntervalTimer :=
  mk_timer (it_interval t) (it_name t) (it_daemon t) (it_started t) true.

(** The process the registry is constructed in.
    Modelled from the spec: [p_master] is the answer of the collaborator
    [is_master_process()], and [p_postfork] counts the callbacks handed to
    [compat.postfork]; the only callback this file hands over is
    [lambda: self._start_collect_timer()]. *)
Record process : Type := mk_process {
  p_master : bool;
  p_postfork : nat;
  p_timers : list IntervalTimer;
  p_log : list (level * string)
}.

(** The timer fields of [MetricsRegistry], and the methods that use them.
    A number is false when it is 0; a timer object is always true. *)
Module MetricsRegistryTimer.

Record t : Type := mk {
  _collect_interval : Z;
  _collect_timer : option nat
}.

(** [timeout or self._collect_interval] *)
Definition timeout_or (timeout : option Z) (collect_interval : Z) : Z :=
  match timeout with
  | Some t => if decide (t = 0) then collect_interval else t
  | None => collect_interval
  end.

Definition _start_collect_timer (self : t) (timeout : option Z) (p : process)
    : t * process :=
  let timeout := timeout_or timeout (_collect_interval self) in
  let timer := length (p_timers p) in
  let timers := p_timers p ++ [mk_timer timeout "eapm metrics collect timer" true false false] in
  let log := p_log p ++ [(DEBUG, "Starting metrics collect timer")] in
  (mk (_collect_interval self) (Some timer),
   mk_process (p_master p) (p_postfork p) (alter timer_start timer timers) log).

Definition _stop_collect_timer (self : t) (p : process) : t * process :=
  match _collect_timer self with
  | Some timer =>
      (self,
       mk_process (p_master p) (p_postfork p) (alter timer_cancel timer (p_timers p))
         (p_log p ++ [(DEBUG, "Cancelling collect timer")]))
  | None => (self, p)
  end.

(** The timer part of [__init__]. *)
Definition __init__ (collect_interval : Z) (p : process) : t * process :=
  let self := mk collect_interval None in
  if decide (collect_interval = 0) then (self, p)
  else if p_master p then
    (self, mk_process (p_master p) (S (p_postfork p)) (p_timers p) (p_log p))
  else _start_collect_timer self None p.

(** The callback handed to [compat.postfork], run after the fork. *)
Definition postfork_callback (self : t) (p : process) : t * process :=
  _start_collect_timer self None p.

End MetricsRegistryTimer.

(** The timers that are running: started and not cancelled. *)
Definition running (p : process) : list IntervalTimer :=
  filter (λ t, it_started t = true ∧ it_cancelled t = false) (p_timers p).

(** * Properties *)

(** ** Dictionaries *)

Section DictFacts.
Context {K V : Type} `{EqDecision K}.
Implicit Types (d : dict K V) (k : K) (v : V).

Lemma dict_get_set_eq d k v : dict_get k (dict_set k v d) = Some v.
Proof.
  induction d as [|[k' v'] d IH]; simpl.
  - by rewrite decide_True.
  - destruct (decide (k = k')) as [->|Hne]; simpl.
    + by rewrite decide_True.
    + by rewrite decide_False.
Qed.

Lemma dict_get_set_ne d k k' v : k' ≠ k → dict_get k' (dict_set k v d) = dict_get k' d.
Proof.
  intros Hne. induction d as [|[k0 v0] d IH]; simpl.
  - by rewrite decide_False.
  - destruct (decide (k = k0)) as [->|Hk]; simpl.
    + by rewrite !decide_False.
    + destruct (decide (k' = k0)); auto.
Qed.

Lemma dict_get_Some_In d k v : dict_get k d = Some v → (k, v) ∈ d.
Proof.
  induction d as [|[k' v'] d IH]; simpl; [done|].
  destruct (decide (k = k')) as [->|Hne].
  - intros [= ->]. constructor.
  - intros Hg. constructor. auto.
Qed.

Lemma dict_get_None_notin d k : dict_get k d = None → k ∉ dict_keys d.
Proof.
  induction d as [|[k' v'] d IH]; simpl.
  - intros _ Hin. inversion Hin.
  - destruct (decide (k = k')) as [->|Hne]; [done|].
    intros Hg Hin. apply elem_of_cons in Hin as [Heq|Hin]; [done|].
    by apply IH.
Qed.

Lemma dict_get_In_NoDup d k v :
  NoDup (dict_keys d) → (k, v) ∈ d → dict_get k d = Some v.
Proof.
  induction d as [|[k' v'] d IH]; simpl.
  - intros _ Hin. inversion Hin.
  - intros Hnd Hin. apply NoDup_cons in Hnd as [Hk' Hnd].
    apply elem_of_cons in Hin as [[= -> ->]|Hin].
    + by rewrite decide_True.
    + rewrite decide_False; [by apply IH|].
      intros ->. apply Hk'. unfold dict_keys.
      apply list_elem_of_fmap. by exists (k', v).
Qed.

Lemma dict_keys_set_notin d k v :
  k ∉ dict_keys d → dict_set k v d = d ++ [(k, v)].
Proof.
  induction d as [|[k' v'] d IH]; simpl; [done|].
  intros Hk. apply not_elem_of_cons in Hk as [Hne Hk].
  rewrite decide_False by done. by rewrite IH.
Qed.

Lemma dict_keys_set d k v :
  dict_keys (dict_set k v d) =
    if dict_mem k d then dict_keys d else dict_keys d ++ [k].
Proof.
  unfold dict_mem. induction d as [|[k' v'] d IH]; simpl; [done|].
  destruct (decide (k = k')) as [->|Hne]; simpl; [done|].
  rewrite IH. by destruct (dict_get k d).
Qed.

Lemma dict_set_NoDup d k v : NoDup (dict_keys d) → NoDup (dict_keys (dict_set k v d)).
Proof.
  intros Hnd. rewrite dict_keys_set. unfold dict_mem.
  destruct (dict_get k d) eqn:Hg; [done|].
  apply NoDup_app. split_and!; [done| |apply NoDup_singleton].
  intros x Hx Hx'. apply list_elem_of_singleton in Hx' as ->.
  by apply dict_get_None_notin in Hg.
Qed.
End DictFacts.

(** ** Counters *)

Lemma exec_counter l c o (σ : heap) :
  σ !! l = Some (OCounter c) →
  exec (Ref l) o σ = (Ok (RetObj (Ref l)), <[l := OCounter (apply_op c o)]> σ).
Proof. intros Hl. destruct o; unfold exec, inc, dec; by rewrite Hl. Qed.

Lemma run_ops_counter l ops : ∀ c (σ : heap),
  σ !! l = Some (OCounter c) →
  run_ops (Ref l) ops σ = <[l := OCounter (fold_left apply_op ops c)]> σ.
Proof.
  induction ops as [|o ops IH]; intros c σ Hl; simpl.
  - symmetry. by apply list_insert_id.
  - change (run_ops (Ref l) (o :: ops) σ)
      with (run_ops (Ref l) ops (exec (Ref l) o σ).2).
    rewrite (exec_counter l c o σ Hl). simpl.
    rewrite (IH (apply_op c o)).
    + apply list_insert_insert_eq.
    + apply list_lookup_insert_eq. by eapply lookup_lt_Some.
Qed.

Lemma fold_apply_op_val ops : ∀ c,
  Counter.val (fold_left apply_op ops c) = Counter.val c + sum_inc ops - sum_dec ops.
Proof.
  induction ops as [|o ops IH]; intros c; simpl; [lia|].
  rewrite IH. destruct o; unfold Counter.val; simpl; lia.
Qed.

Lemma fold_apply_op_initial ops : ∀ c,
  Counter._initial_value (fold_left apply_op ops c) = Counter._initial_value c.
Proof.
  induction ops as [|o ops IH]; intros c; simpl; [done|].
  rewrite IH. by destruct o.
Qed.

Lemma reset_counter l c (σ : heap) :
  σ !! l = Some (OCounter c) →
  reset (Ref l) σ = (Ok (RetObj (Ref l)), <[l := OCounter (Counter.reset c)]> σ).
Proof. intros Hl. unfold reset. by rewrite Hl. Qed.

Lemma alloc_lookup o (σ : heap) : (alloc o σ).2 !! length σ = Some o.
Proof. unfold alloc; simpl. by apply list_lookup_middle. Qed.

Lemma val_counter l c (σ : heap) :
  σ !! l = Some (OCounter c) → val (Ref l) σ = Some (Counter.val c).
Proof. intros Hl. unfold val. by rewrite Hl. Qed.

(** C7: a counter constructed with initial value [v0] (whatever [v0] is)
    and then incremented and decremented any number of times has value
    exactly [v0] after [reset()], and [reset()] evaluates to the counter. *)
Theorem C7_reset_restores_initial_value (label : string) (v0 : Z) (ops : list op) (σ : heap) :
  let '(h, σ1) := alloc (OCounter (Counter.__init__ label v0)) σ in
  let σ2 := run_ops h ops σ1 in
  (reset h σ2).1 = Ok (RetObj h) ∧ val h (reset h σ2).2 = Some v0.
Proof.
  unfold alloc. cbv beta iota zeta.
  set (c0 := Counter.__init__ label v0). set (l := length σ).
  assert (Hl : (σ ++ [OCounter c0]) !! l = Some (OCounter c0))
    by apply (alloc_lookup (OCounter c0) σ).
  rewrite (run_ops_counter _ ops c0 _ Hl).
  erewrite reset_counter
    by (apply list_lookup_insert_eq; by eapply lookup_lt_Some).
  split; [done|]. cbn [snd].
  erewrite val_counter
    by (apply list_lookup_insert_eq; rewrite length_insert; by eapply lookup_lt_Some).
  unfold Counter.val, Counter.reset; cbn [Counter._val].
  by rewrite fold_apply_op_initial.
Qed.

Lemma net_all_done callers : Forall (λ p, p = []) callers → net callers = 0.
Proof. induction 1 as [|p ps -> _ IH]; simpl; [done|]. rewrite IH. lia. Qed.

Lemma net_step callers : ∀ i o rest,
  callers !! i = Some (o :: rest) →
  net callers = sum_inc [o] - sum_dec [o] + net (<[i := rest]> callers).
Proof.
  induction callers as [|p ps IH]; intros [|i] o rest Hi; simplify_eq/=.
  - destruct o; lia.
  - rewrite (IH i o rest Hi). simpl. lia.
Qed.

Lemma apply_op_val c o :
  Counter.val (apply_op c o) = Counter.val c + sum_inc [o] - sum_dec [o].
Proof. destruct o; unfold Counter.val; simpl; lia. Qed.

Lemma interleaving_counter l callers (σ σ' : heap) :
  interleaving (Ref l) callers σ σ' →
  ∀ c, σ !! l = Some (OCounter c) →
  ∃ c', σ' = <[l := OCounter c']> σ ∧ Counter.val c' = Counter.val c + net callers.
Proof.
  induction 1 as [callers σ Hdone|callers i o rest σ σ' Hi _ IH]; intros c Hl.
  - exists c. split; [symmetry; by apply list_insert_id|].
    rewrite net_all_done by done. lia.
  - rewrite (exec_counter l c o σ Hl) in IH. cbn [snd] in IH.
    destruct (IH (apply_op c o)) as (c' & -> & Hv).
    { apply list_lookup_insert_eq. by eapply lookup_lt_Some. }
    exists c'. split; [apply list_insert_insert_eq|].
    rewrite Hv, apply_op_val, (net_step callers i o rest Hi). lia.
Qed.

Lemma callers_done_or_next (callers : list (list op)) :
  Forall (λ p, p = []) callers ∨ ∃ i o rest, callers !! i = Some (o :: rest).
Proof.
  induction callers as [|p ps [IH|(i & o & rest & Hi)]].
  - left. constructor.
  - destruct p as [|o rest].
    + left. by constructor.
    + right. by exists 0%nat, o, rest.
  - right. by exists (S i), o, rest.
Qed.

Lemma concat_length_step (callers : list (list op)) : ∀ i o rest,
  callers !! i = Some (o :: rest) →
  length (concat callers) = S (length (concat (<[i := rest]> callers))).
Proof.
  induction callers as [|p ps IH]; intros [|i] o rest Hi; simplify_eq/=.
  - done.
  - rewrite !length_app. rewrite (IH i o rest Hi). lia.
Qed.

(** Every set of callers runs to completion, whatever [h] designates. *)
Lemma interleaving_exists h (n : nat) : ∀ callers (σ : heap),
  length (concat callers) = n → ∃ σ', interleaving h callers σ σ'.
Proof.
  induction n as [|n IH]; intros callers σ Hn.
  - destruct (callers_done_or_next callers) as [Hd|(i & o & rest & Hi)].
    + exists σ. by constructor.
    + rewrite (concat_length_step _ _ _ _ Hi) in Hn. lia.
  - destruct (callers_done_or_next callers) as [Hd|(i & o & rest & Hi)].
    + exists σ. by constructor.
    + rewrite (concat_length_step _ _ _ _ Hi) in Hn.
      destruct (IH (<[i := rest]> callers) (exec h o σ).2) as [σ' Hσ']; [lia|].
      exists σ'. by econstructor.
Qed.

Lemma net_replicate_inc (N M : nat) :
  net (replicate N (replicate M (Inc 1))) = Z.of_nat N * Z.of_nat M.
Proof.
  assert (HM : sum_inc (replicate M (Inc 1)) - sum_dec (replicate M (Inc 1)) = Z.of_nat M).
  { induction M as [|M IH]; simpl in *; lia. }
  induction N as [|N IH]; [simpl; lia|].
  change (net (replicate (S N) (replicate M (Inc 1))))
    with (sum_inc (replicate M (Inc 1)) - sum_dec (replicate M (Inc 1))
          + net (replicate N (replicate M (Inc 1)))).
  rewrite IH, HM. lia.
Qed.

(** C8 (as the code behaves): with float deltas the final value depends
    on the order of the calls.  On a counter that starts at 0.0, the calls
    [inc(1e16)], [inc(1.0)], [dec(1e16)] leave 0.0 in this order and 1.0 when
    the decrement comes second, so no sum of the deltas gives the final
    value of every order. *)
Lemma C8_counterexample :
  let c := FloatCounter.__init__ "bytes" 0%float in
  let first := fold_left apply_float_op [FInc 1e16; FInc 1; FDec 1e16] c in
  let second := fold_left apply_float_op [FInc 1e16; FDec 1e16; FInc 1] c in
  FloatCounter.val first = 0%float ∧
  FloatCounter.val second = 1%float ∧
  FloatCounter.val first ≠ FloatCounter.val second.
Proof.
  split; [reflexivity|]. split; [reflexivity|].
  intros H. apply (f_equal (λ x, PrimFloat.eqb x 0%float)) in H.
  vm_compute in H. discriminate.
Qed.

(** C8, amended: for a counter whose value is the integer [v], after any
    finite sequence of [inc] and [dec] calls with integer deltas its value
    is [v] plus the sum of the increment deltas minus the sum of the
    decrement deltas; the same holds for any interleaving of the calls of
    several callers; in particular [N] callers that each call [inc(1)] [M]
    times always finish, and leave a counter that started at 0 at exactly
    [N * M]. *)
Theorem C8_counter_value_is_sum_of_deltas (σ : heap) (l : nat) (c : Counter.t)
    (Hl : σ !! l = Some (OCounter c)) :
  (∀ ops, val (Ref l) (run_ops (Ref l) ops σ)
          = Some (Counter.val c + sum_inc ops - sum_dec ops)) ∧
  (∀ callers σ', interleaving (Ref l) callers σ σ' →
     val (Ref l) σ' = Some (Counter.val c + net callers)) ∧
  (∀ N M : nat,
     let callers := replicate N (replicate M (Inc 1)) in
     (∃ σ', interleaving (Ref l) callers σ σ') ∧
     (∀ σ', Counter.val c = 0 → interleaving (Ref l) callers σ σ' →
        val (Ref l) σ' = Some (Z.of_nat N * Z.of_nat M))).
Proof.
  assert (Hlt : (l < length σ)%nat) by (by eapply lookup_lt_Some).
  assert (Hany : ∀ callers σ', interleaving (Ref l) callers σ σ' →
            val (Ref l) σ' = Some (Counter.val c + net callers)).
  { intros callers σ' Hrun.
    destruct (interleaving_counter _ _ _ _ Hrun c Hl) as (c' & -> & Hv).
    erewrite val_counter by (by apply list_lookup_insert_eq). by rewrite Hv. }
  split_and!.
  - intros ops. rewrite (run_ops_counter _ ops c _ Hl).
    erewrite val_counter by (by apply list_lookup_insert_eq).
    by rewrite fold_apply_op_val.
  - exact Hany.
  - intros N M callers. split.
    + by eapply interleaving_exists.
    + intros σ' H0 Hrun. rewrite (Hany _ _ Hrun), H0.
      unfold callers. rewrite net_replicate_inc. f_equal; lia.
Qed.

Lemma C8_witness :
  let σ := [OCounter (Counter.__init__ "requests.count" 0)] in
  val (Ref 0) (run_ops (Ref 0) [Inc 5; Dec 2; Inc 1] σ) = Some 4 ∧
  ∃ σ', interleaving (Ref 0) (replicate 3 (replicate 4 (Inc 1))) σ σ' ∧
        val (Ref 0) σ' = Some 12.
Proof.
  intros σ.
  destruct (C8_counter_value_is_sum_of_deltas σ 0 (Counter.__init__ "requests.count" 0)
              eq_refl) as (Hseq & _ & HNM).
  split; [apply (Hseq [Inc 5; Dec 2; Inc 1])|].
  destruct (HNM 3%nat 4%nat) as [[σ' Hrun] H].
  exists σ'. split; [exact Hrun|]. by apply H.
Defined.

(** C9 (as the code behaves): the mutators of the no-op substitute
    evaluate to [None], not to the handle, and leave the store alone; a
    counter handle obtained for an ignored name is that substitute, so
    [counter(name).inc()] is [None] there, while on a real counter [inc]
    evaluates to the counter. *)
Theorem C9_noop_mutators_return_None (σ : heap) (delta : Z) :
  inc noop_metric delta σ = (Ok RetNone, σ) ∧
  dec noop_metric delta σ = (Ok RetNone, σ) ∧
  reset noop_metric σ = (Ok RetNone, σ) ∧
  (let pats := [{| pattern_match := λ _, true |}] in
   let '(h, _, σ') := MetricsSet.counter pats MetricsSet.__init__ "requests" [] σ in
   h = noop_metric ∧ (inc h 1 σ').1 = Ok RetNone ∧ (inc h 1 σ').1 ≠ Ok (RetObj h)) ∧
  (let '(h, _, σ') := MetricsSet.counter [] MetricsSet.__init__ "requests" [] σ in
   (inc h delta σ').1 = Ok (RetObj h)).
Proof.
  split_and!; try done.
  unfold MetricsSet.counter, alloc; cbn -[inc].
  unfold inc. by rewrite list_lookup_middle.
Qed.

(** ** Label keys *)

Global Instance item_le_trans : Transitive MetricsSet.item_le.
Proof. intros p q r. unfold MetricsSet.item_le. apply transitivity. Qed.

Global Instance item_le_total : Total MetricsSet.item_le.
Proof. intros p q. unfold MetricsSet.item_le. apply total, _. Qed.

Lemma dict_items_inj {V} (d : dict string V) p q :
  NoDup (dict_keys d) → p ∈ d → q ∈ d → p.1 = q.1 → p = q.
Proof.
  destruct p as [k v], q as [k' v']. simpl. intros Hnd Hp Hq <-.
  pose proof (dict_get_In_NoDup d k v Hnd Hp) as H1.
  pose proof (dict_get_In_NoDup d k v' Hnd Hq) as H2.
  congruence.
Qed.


(** [sorted] returns the one arrangement of the items that is ordered by
    key, so the result does not depend on the sorting algorithm. *)
Lemma sorted_unique (L l : dict string pyval) :
  NoDup (dict_keys L) → Sorted MetricsSet.item_le l → l ≡ₚ L → l = MetricsSet.sorted L.
Proof.
  intros Hnd Hsorted Hperm. unfold MetricsSet.sorted.
  apply (Sorted_unique_strong MetricsSet.item_le).
  - intros p q Hp Hq Hpq Hqp.
    rewrite Hperm in Hp. rewrite merge_sort_Permutation in Hq.
    apply (dict_items_inj L); [done..|].
    unfold MetricsSet.item_le in *. by apply (anti_symm String.le).
  - done.
  - apply Sorted_merge_sort, _.
  - by rewrite merge_sort_Permutation.
Qed.




(** What one [counter] call does to the set and the store. *)
Lemma counter_effect pats self name labels (σ : heap) h self' σ' :
  MetricsSet.counter pats self name labels σ = (h, self', σ') →
  dict_get (name, MetricsSet._labels_to_key labels) (MetricsSet._counters self') = Some h ∧
  MetricsSet._gauges self' = MetricsSet._gauges self ∧
  (∀ k h0, dict_get k (MetricsSet._counters self) = Some h0 →
           dict_get k (MetricsSet._counters self') = Some h0) ∧
  (σ' = σ ∨ σ' = σ ++ [OCounter (Counter.mk name 0 0)] ∧ h = Ref (length σ)).
Proof.
  unfold MetricsSet.counter.
  destruct (dict_get _ (MetricsSet._counters self)) as [c|] eqn:Hget.
  { intros ?; simplify_eq. auto. }
  destruct (MetricsSet.ignored pats name); unfold alloc; intros ?; simplify_eq;
    cbn [MetricsSet._counters MetricsSet._gauges]; rewrite dict_get_set_eq;
    (split_and!; [done|done| |auto]);
    intros k h0 Hk; (rewrite dict_get_set_ne; [done|congruence]).
Qed.

Lemma gauge_effect pats self name labels (σ : heap) h self' σ' :
  MetricsSet.gauge pats self name labels σ = (h, self', σ') →
  dict_get (name, MetricsSet._labels_to_key labels) (MetricsSet._gauges self') = Some h ∧
  MetricsSet._counters self' = MetricsSet._counters self ∧
  (∀ k h0, dict_get k (MetricsSet._gauges self) = Some h0 →
           dict_get k (MetricsSet._gauges self') = Some h0) ∧
  (σ' = σ ∨ σ' = σ ++ [OGauge (Gauge.mk name None)] ∧ h = Ref (length σ)).
Proof.
  unfold MetricsSet.gauge.
  destruct (dict_get _ (MetricsSet._gauges self)) as [c|] eqn:Hget.
  { intros ?; simplify_eq. auto. }
  destruct (MetricsSet.ignored pats name); unfold alloc; intros ?; simplify_eq;
    cbn [MetricsSet._counters MetricsSet._gauges]; rewrite dict_get_set_eq;
    (split_and!; [done|done| |auto]);
    intros k h0 Hk; (rewrite dict_get_set_ne; [done|congruence]).
Qed.



(** ** Ignored names *)

Lemma ignored_are_noop_set pats d k h :
  ignored_are_noop pats d →
  (MetricsSet.ignored pats k.1 = true → h = noop_metric) →
  ignored_are_noop pats (dict_set k h d).
Proof.
  intros Hd Hh k' h' Hg Hi. destruct (decide (k' = k)) as [->|Hne].
  - rewrite dict_get_set_eq in Hg. simplify_eq. auto.
  - rewrite dict_get_set_ne in Hg by done. eauto.
Qed.

Lemma built_by_ignored_are_noop pats self :
  built_by pats self →
  ignored_are_noop pats (MetricsSet._counters self) ∧
  ignored_are_noop pats (MetricsSet._gauges self).
Proof.
  induction 1 as [|self name labels σ _ [IHc IHg]|self name labels σ _ [IHc IHg]].
  - split; intros k h Hg; discriminate.
  - unfold MetricsSet.counter.
    destruct (dict_get _ (MetricsSet._counters self)); [done|].
    destruct (MetricsSet.ignored pats name) eqn:Hi; cbn; split; try done.
    + by apply ignored_are_noop_set.
    + apply ignored_are_noop_set; [done|]. cbn. congruence.
  - unfold MetricsSet.gauge.
    destruct (dict_get _ (MetricsSet._gauges self)); [done|].
    destruct (MetricsSet.ignored pats name) eqn:Hi; cbn; split; try done.
    + by apply ignored_are_noop_set.
    + apply ignored_are_noop_set; [done|]. cbn. congruence.
Qed.

Lemma matching_is_ignored pats p name :
  p ∈ pats → pattern_match p name = true → MetricsSet.ignored pats name = true.
Proof.
  intros Hin Hm. unfold MetricsSet.ignored.
  destruct pats as [|q pats]; [by apply elem_of_nil in Hin|].
  apply existsb_exists. exists p. split; [|done]. by apply list_elem_of_In.
Qed.

Lemma run_mutators_noop ms (σ : heap) : run_mutators noop_metric ms σ = σ.
Proof.
  revert σ. induction ms as [|m ms IH]; intros σ; [done|].
  change (run_mutators noop_metric (m :: ms) σ)
    with (run_mutators noop_metric ms (mutate noop_metric m σ)).
  rewrite IH. by destruct m.
Qed.

(** C4: on a metric set of a registry whose ignore patterns include one
    that matches [name], [counter(name, labels)] and [gauge(name, labels)]
    return the no-op metric and allocate nothing; the value of that metric
    reads as absent, and any number of [inc], [dec], [reset] calls and value
    assignments on it leaves the store as it was and the value absent. *)
Theorem C4_ignored_name_yields_noop (pats : list pattern) (self : MetricsSet.t)
    (name : string) (labels : dict string pyval) (σ : heap) (p : pattern)
    (Hbuilt : built_by pats self)
    (Hin : p ∈ pats) (Hmatch : pattern_match p name = true) :
  (∃ self', MetricsSet.counter pats self name labels σ = (noop_metric, self', σ)) ∧
  (∃ self', MetricsSet.gauge pats self name labels σ = (noop_metric, self', σ)) ∧
  val noop_metric σ = None ∧
  ∀ ms, run_mutators noop_metric ms σ = σ ∧
        val noop_metric (run_mutators noop_metric ms σ) = None.
Proof.
  pose proof (matching_is_ignored _ _ _ Hin Hmatch) as Hi.
  destruct (built_by_ignored_are_noop _ _ Hbuilt) as [Hc Hg].
  split_and!.
  - unfold MetricsSet.counter.
    destruct (dict_get _ (MetricsSet._counters self)) as [h|] eqn:Hget.
    + rewrite (Hc _ _ Hget Hi). eauto.
    + rewrite Hi. eauto.
  - unfold MetricsSet.gauge.
    destruct (dict_get _ (MetricsSet._gauges self)) as [h|] eqn:Hget.
    + rewrite (Hg _ _ Hget Hi). eauto.
    + rewrite Hi. eauto.
  - done.
  - intros ms. by rewrite run_mutators_noop.
Qed.

Lemma C4_witness :
  let starts_with_db := {| pattern_match := String.prefix "db." |} in
  let pats := [starts_with_db] in
  let self := (MetricsSet.counter pats MetricsSet.__init__ "requests" [] []).1.2 in
  let σ := (MetricsSet.counter pats MetricsSet.__init__ "requests" [] []).2 in
  (MetricsSet.counter pats self "db.queries" [("table", PStr "users")] σ).1.1 = noop_metric ∧
  (MetricsSet.gauge pats self "db.pool" [] σ).1.1 = noop_metric ∧
  run_mutators noop_metric [MInc 1; MInc 1; MDec 3; MSet (Some 7); MReset] σ = σ.
Proof.
  intros p pats self σ.
  assert (Hb : built_by pats self) by (apply built_counter, built_init).
  assert (Hin : p ∈ pats) by (by left).
  destruct (C4_ignored_name_yields_noop pats self "db.queries"
              [("table", PStr "users")] σ p Hb Hin eq_refl) as ([s1 H1] & _ & _ & Hm).
  destruct (C4_ignored_name_yields_noop pats self "db.pool" [] σ p Hb Hin eq_refl)
    as (_ & [s2 H2] & _ & _).
  rewrite H1, H2. split_and!; [done..|]. apply Hm.
Defined.

(** ** Collection of one metric set *)

Lemma add_samples_filter (σ : heap) (d : dict key handle) : ∀ acc,
  fold_left (MetricsSet.add_sample σ) d acc
  = fold_left (MetricsSet.add_sample σ) (filter (λ e, is_not_noop e.2 = true) d) acc.
Proof.
  induction d as [|[[name lk] h] d IH]; intros acc; [done|].
  rewrite filter_cons. destruct h as [|l]; simpl; apply IH.
Qed.

Lemma collect_samples_without_noop self (σ : heap) :
  MetricsSet.collect_samples (without_noop self) σ = MetricsSet.collect_samples self σ.
Proof.
  unfold MetricsSet.collect_samples, without_noop. cbn [MetricsSet._counters MetricsSet._gauges].
  by rewrite <- !add_samples_filter.
Qed.

Lemma add_samples_all_noop (σ : heap) (d : dict key handle) acc :
  Forall (λ e, e.2 = noop_metric) d →
  fold_left (MetricsSet.add_sample σ) d acc = acc.
Proof.
  intros Hall. revert acc.
  induction Hall as [|[[name lk] h] d Hh _ IH]; intros acc; [done|].
  simpl in Hh. subst h. simpl. apply IH.
Qed.

Lemma elem_of_dict_set {K V} `{EqDecision K} (d : dict K V) k v e :
  e ∈ dict_set k v d → e = (k, v) ∨ e ∈ d.
Proof.
  induction d as [|[k' v'] d IH]; simpl.
  - intros ?%list_elem_of_singleton. by left.
  - destruct (decide (k = k')) as [->|Hne]; intros Hin;
      apply elem_of_cons in Hin as [->|Hin].
    + by left.
    + right. by right.
    + right. by left.
    + destruct (IH Hin) as [->|?]; [by left|]. right. by right.
Qed.

Lemma sourced_add_samples (σ : heap) (entries d : dict key handle) : ∀ acc,
  d ⊆ entries → sourced σ entries acc →
  sourced σ entries (fold_left (MetricsSet.add_sample σ) d acc).
Proof.
  induction d as [|[[name lk] h] d IH]; intros acc Hsub Hacc; [done|].
  simpl. apply IH.
  { intros e He. apply Hsub. by right. }
  destruct h as [|l]; simpl; [done|].
  intros lk' group name' s Hg Hs.
  apply elem_of_dict_set in Hg as [[= -> ->]|Hg]; [|by eapply Hacc].
  apply elem_of_dict_set in Hs as [[= -> ->]|Hs].
  - exists (Ref l). split_and!; [|done..]. apply Hsub. by left.
  - destruct (dict_get lk acc) as [g|] eqn:Hget; simpl in Hs.
    + apply dict_get_Some_In in Hget. by eapply Hacc.
    + by apply elem_of_nil in Hs.
Qed.

Lemma collect_samples_sourced self (σ : heap) :
  sourced σ (MetricsSet._counters self ++ MetricsSet._gauges self)
    (MetricsSet.collect_samples self σ).
Proof.
  unfold MetricsSet.collect_samples.
  apply sourced_add_samples; [intros e ?; apply elem_of_app; by right|].
  apply sourced_add_samples; [intros e ?; apply elem_of_app; by left|].
  intros lk group name s Hin. by apply elem_of_nil in Hin.
Qed.

(** C6: [collect()] on a metric set all of whose entries (if any) are the
    no-op metric yields no record; in general the no-op entries contribute
    nothing: the records are those of the set without its no-op entries, and
    every sample of every record is the value of a stored metric that is not
    the no-op metric. *)
Theorem C6_noop_metrics_are_not_collected (pats : list pattern) (self : MetricsSet.t)
    (σ : heap) (time : clock) (n : nat) :
  (Forall (λ e, e.2 = noop_metric) (MetricsSet._counters self) →
   Forall (λ e, e.2 = noop_metric) (MetricsSet._gauges self) →
   MetricsSet.collect MetricsSet.before_collect pats self σ time n
   = (Ok [], self, σ, S n)) ∧
  (MetricsSet.collect MetricsSet.before_collect pats self σ time n).1.1.1
  = (MetricsSet.collect MetricsSet.before_collect pats (without_noop self) σ time n).1.1.1 ∧
  (∀ records r name s,
     (MetricsSet.collect MetricsSet.before_collect pats self σ time n).1.1.1 = Ok records →
     r ∈ records → (name, s) ∈ samples r →
     ∃ lk h, ((name, lk), h) ∈ MetricsSet._counters self ++ MetricsSet._gauges self ∧
             h ≠ noop_metric ∧ s = mk_sample (val h σ)).
Proof.
  unfold MetricsSet.collect, MetricsSet.before_collect. cbn [fst snd].
  split_and!.
  - intros Hc Hg. unfold MetricsSet.collect_samples.
    by rewrite !add_samples_all_noop.
  - by rewrite collect_samples_without_noop.
  - intros records r name s [= <-] Hr Hs.
    apply list_elem_of_fmap in Hr as ([lk group] & -> & Hgroup).
    exists lk. by eapply collect_samples_sourced.
Qed.

Lemma C6_witness :
  let pats := [{| pattern_match := String.prefix "db." |}] in
  let '(_, self1, σ1) := MetricsSet.counter pats MetricsSet.__init__ "db.queries" [] [] in
  let '(_, self2, σ2) := MetricsSet.gauge pats self1 "db.pool" [("host", PStr "a")] σ1 in
  MetricsSet._counters self2 = [(("db.queries", []), noop_metric)] ∧
  MetricsSet.collect MetricsSet.before_collect pats self2 σ2 (λ _, 1700000000000000) 0
  = (Ok [], self2, σ2, 1%nat).
Proof.
  split; [reflexivity|].
  match goal with
  | |- MetricsSet.collect _ ?pats ?self ?σ ?time ?n = _ =>
      destruct (C6_noop_metrics_are_not_collected pats self σ time n) as (H & _ & _)
  end.
  apply H; repeat constructor.
Defined.

(** The [tags] of a record are the pairs of its label key. *)
Lemma make_tags_acc (lk : labelkey) : ∀ acc : dict string string,
  NoDup (dict_keys (acc ++ lk)) →
  fold_left (λ d kv, dict_set kv.1 kv.2 d) lk acc = acc ++ lk.
Proof.
  induction lk as [|[k v] lk IH]; intros acc Hnd; simpl.
  - by rewrite app_nil_r.
  - rewrite dict_keys_set_notin.
    + rewrite IH; rewrite <- app_assoc; [done|]. exact Hnd.
    + unfold dict_keys in Hnd. rewrite fmap_app in Hnd.
      apply NoDup_app in Hnd as (_ & Hdisj & _).
      intros Hk. apply (Hdisj k Hk). by left.
Qed.

Lemma make_tags_label_key (lk : labelkey) :
  NoDup (dict_keys lk) → MetricsSet.make_tags lk = lk.
Proof. intros Hnd. unfold MetricsSet.make_tags. by rewrite make_tags_acc. Qed.

Lemma tags_present_iff timestamp (group : labelkey * dict string sample) :
  is_Some (tags (MetricsSet.make_result timestamp group)) ↔ group.1 ≠ [].
Proof.
  unfold MetricsSet.make_result; cbn [tags]. destruct group.1.
  - split; [by intros [? [=]]|done].
  - split; [done|eauto].
Qed.

(** C5: a metric set that holds, besides no-op entries, two counters
    [n1] and [n2] under the label key [A] and one gauge [n3] under the label
    key [B], with [A] different from [B], yields exactly two records: the
    first has both counters as its samples and the tags of [A], the second
    has the gauge and the tags of [B].  Both carry the one timestamp read
    in this call (the clock is read once), and a record has tags exactly
    when its label key is not empty. *)
Theorem C5_collect_groups_by_label_key (pats : list pattern) (self : MetricsSet.t)
    (n1 n2 n3 : string) (A B : labelkey) (c1 c2 g : nat)
    (σ : heap) (time : clock) (n : nat)
    (Hself : without_noop self
             = MetricsSet.mk [((n1, A), Ref c1); ((n2, A), Ref c2)] [((n3, B), Ref g)])
    (Hnames : n1 ≠ n2) (HAB : A ≠ B) :
  let tags_of lk := match lk with [] => None | _ => Some (MetricsSet.make_tags lk) end in
  MetricsSet.collect MetricsSet.before_collect pats self σ time n
  = (Ok [ mk_record [(n1, mk_sample (val (Ref c1) σ)); (n2, mk_sample (val (Ref c2) σ))]
            (time n) (tags_of A);
          mk_record [(n3, mk_sample (val (Ref g) σ))] (time n) (tags_of B) ],
     self, σ, S n) ∧
  (∀ lk, is_Some (tags_of lk) ↔ lk ≠ []) ∧
  (∀ lk, NoDup (dict_keys lk) → lk ≠ [] → tags_of lk = Some lk).
Proof.
  intros tags_of. split_and!.
  - unfold MetricsSet.collect, MetricsSet.before_collect.
    rewrite <- collect_samples_without_noop, Hself.
    unfold MetricsSet.collect_samples, MetricsSet.add_sample. cbn -[val].
    rewrite !decide_True by done. cbn -[val].
    rewrite !(decide_False (P := n2 = n1)) by done.
    rewrite !(decide_False (P := B = A)) by done. reflexivity.
  - intros lk. destruct lk as [|kv lk]; cbn.
    + split; [by intros [? [=]]|done].
    + split; [done|eauto].
  - intros lk Hnd Hne. destruct lk as [|kv lk]; [done|].
    unfold tags_of. by rewrite make_tags_label_key.
Qed.

Lemma C5_witness :
  let A := [("code", "200")] in
  let σ := [OCounter (Counter.mk "hits" 0 3); OCounter (Counter.mk "bytes" 0 512);
            OGauge (Gauge.mk "load" (Some 7))] in
  let self := MetricsSet.mk [(("hits", A), Ref 0); (("bytes", A), Ref 1)]
                            [(("load", []), Ref 2)] in
  MetricsSet.collect MetricsSet.before_collect [] self σ (λ _, 1700000000000000) 0
  = (Ok [ mk_record [("hits", mk_sample (Some 3)); ("bytes", mk_sample (Some 512))]
            1700000000000000 (Some [("code", "200")]);
          mk_record [("load", mk_sample (Some 7))] 1700000000000000 None ],
     self, σ, 1%nat).
Proof.
  intros A σ self.
  assert (Hn : "hits" ≠ "bytes") by discriminate.
  assert (HAB : A ≠ []) by discriminate.
  destruct (C5_collect_groups_by_label_key [] self "hits" "bytes" "load" A [] 0 1 2
              σ (λ _, 1700000000000000) 0 eq_refl Hn HAB) as (H & _ & _).
  exact H.
Defined.

(** ** A counter and a gauge under one key *)

Lemma group_sample_add_eq (σ : heap) samples name lk l :
  group_sample (MetricsSet.add_sample σ samples ((name, lk), Ref l)) lk name
  = Some (mk_sample (val (Ref l) σ)).
Proof.
  unfold group_sample, MetricsSet.add_sample. cbn [is_not_noop].
  rewrite dict_get_set_eq. cbn [mbind option_bind]. apply dict_get_set_eq.
Qed.

Lemma group_sample_add_ne (σ : heap) samples name lk name' lk' h :
  (name', lk') ≠ (name, lk) →
  group_sample (MetricsSet.add_sample σ samples ((name', lk'), h)) lk name
  = group_sample samples lk name.
Proof.
  intros Hne. unfold group_sample, MetricsSet.add_sample.
  destruct h as [|l]; cbn [is_not_noop]; [done|].
  destruct (decide (lk = lk')) as [->|Hlk].
  - rewrite dict_get_set_eq. cbn [mbind option_bind].
    rewrite dict_get_set_ne by congruence.
    by destruct (dict_get lk' samples).
  - by rewrite dict_get_set_ne.
Qed.

Lemma group_sample_add_samples_notin (σ : heap) name lk (d : dict key handle) : ∀ acc,
  (name, lk) ∉ dict_keys d →
  group_sample (fold_left (MetricsSet.add_sample σ) d acc) lk name
  = group_sample acc lk name.
Proof.
  induction d as [|[[name' lk'] h] d IH]; intros acc Hk; [done|].
  apply not_elem_of_cons in Hk as [Hne Hk]. simpl.
  rewrite IH by done. apply group_sample_add_ne. simpl in Hne. congruence.
Qed.

Lemma group_sample_add_samples_in (σ : heap) name lk l (d : dict key handle) : ∀ acc,
  NoDup (dict_keys d) → ((name, lk), Ref l) ∈ d →
  group_sample (fold_left (MetricsSet.add_sample σ) d acc) lk name
  = Some (mk_sample (val (Ref l) σ)).
Proof.
  induction d as [|e d IH]; intros acc Hnd Hin; [by apply elem_of_nil in Hin|].
  apply NoDup_cons in Hnd as [Hk Hnd].
  apply elem_of_cons in Hin as [<-|Hin]; simpl.
  - rewrite group_sample_add_samples_notin by done. apply group_sample_add_eq.
  - by apply IH.
Qed.

Lemma groups_wf_add_samples (σ : heap) (d : dict key handle) : ∀ acc,
  groups_wf acc → groups_wf (fold_left (MetricsSet.add_sample σ) d acc).
Proof.
  induction d as [|[[name lk] h] d IH]; intros acc Hacc; [done|].
  simpl. apply IH. destruct h as [|l]; simpl; [done|].
  destruct Hacc as [Hnd Hall]. split; [by apply dict_set_NoDup|].
  apply Forall_forall. intros g Hg.
  apply elem_of_dict_set in Hg as [->|Hg].
  - simpl. apply dict_set_NoDup.
    destruct (dict_get lk acc) as [g0|] eqn:Hget; simpl; [|constructor].
    apply dict_get_Some_In in Hget.
    by apply (proj1 (Forall_forall _ _) Hall (lk, g0)).
  - by apply (proj1 (Forall_forall _ _) Hall).
Qed.

Lemma collect_samples_wf self (σ : heap) : groups_wf (MetricsSet.collect_samples self σ).
Proof.
  unfold MetricsSet.collect_samples. do 2 apply groups_wf_add_samples.
  split; constructor.
Qed.

(** C10: when a metric set stores a counter and a gauge under the same
    name and label key, the two are different objects, and [collect()]
    emits exactly one group for that label key, in which the name occurs
    once, with the value of the gauge: the gauges are merged into the groups
    after the counters. *)
Theorem C10_gauge_overwrites_counter_sample (pats : list pattern) (self : MetricsSet.t)
    (name : string) (lk : labelkey) (c g : nat) (cv : Counter.t) (gv : Gauge.t)
    (σ : heap) (time : clock) (n : nat)
    (Hgauges : NoDup (dict_keys (MetricsSet._gauges self)))
    (Hc : ((name, lk), Ref c) ∈ MetricsSet._counters self)
    (Hg : ((name, lk), Ref g) ∈ MetricsSet._gauges self)
    (Hcv : σ !! c = Some (OCounter cv))
    (Hgv : σ !! g = Some (OGauge gv)) :
  Ref c ≠ Ref g ∧
  ∃ group,
    MetricsSet.collect MetricsSet.before_collect pats self σ time n
    = (Ok (MetricsSet.make_result (time n) <$> MetricsSet.collect_samples self σ),
       self, σ, S n) ∧
    dict_get lk (MetricsSet.collect_samples self σ) = Some group ∧
    NoDup (dict_keys (MetricsSet.collect_samples self σ)) ∧
    dict_get name group = Some (mk_sample (Gauge.val gv)) ∧
    NoDup (dict_keys group) ∧
    MetricsSet.make_result (time n) (lk, group)
      ∈ MetricsSet.make_result (time n) <$> MetricsSet.collect_samples self σ.
Proof.
  split; [congruence|].
  pose proof (collect_samples_wf self σ) as [Hnd Hall].
  assert (Hs : group_sample (MetricsSet.collect_samples self σ) lk name
               = Some (mk_sample (Gauge.val gv))).
  { unfold MetricsSet.collect_samples.
    rewrite (group_sample_add_samples_in σ name lk g) by done.
    unfold val. by rewrite Hgv. }
  unfold group_sample in Hs.
  destruct (dict_get lk (MetricsSet.collect_samples self σ)) as [group|] eqn:Hget;
    [|discriminate].
  cbn [mbind option_bind] in Hs. apply dict_get_Some_In in Hget as Hin.
  exists group. split_and!; try done.
  - by apply (proj1 (Forall_forall _ _) Hall (lk, group)).
  - by apply list_elem_of_fmap_2.
Qed.

Lemma C10_witness :
  let '(hc, self1, σ1) := MetricsSet.counter [] MetricsSet.__init__ "jobs" [("q", PStr "a")] [] in
  let '(hg, self2, σ2) := MetricsSet.gauge [] self1 "jobs" [("q", PStr "a")] σ1 in
  let σ3 := (set_val hg (Some 9) (inc hc 4 σ2).2).2 in
  hc ≠ hg ∧ val hc σ3 = Some 4 ∧ val hg σ3 = Some 9 ∧
  (MetricsSet.collect MetricsSet.before_collect [] self2 σ3 (λ _, 1700000000000000) 0).1.1.1
  = Ok [mk_record [("jobs", mk_sample (Some 9))] 1700000000000000 (Some [("q", "a")])].
Proof.
  cbv zeta.
  destruct (MetricsSet.counter [] MetricsSet.__init__ "jobs" [("q", PStr "a")] [])
    as [[hc self1] σ1] eqn:E1.
  destruct (MetricsSet.gauge [] self1 "jobs" [("q", PStr "a")] σ1)
    as [[hg self2] σ2] eqn:E2.
  vm_compute in E1. simplify_eq. vm_compute in E2. simplify_eq.
  destruct (C10_gauge_overwrites_counter_sample []
              (MetricsSet.mk [(("jobs", [("q", "a")]), Ref 0)] [(("jobs", [("q", "a")]), Ref 1)])
              "jobs" [("q", "a")] 0 1 (Counter.mk "jobs" 0 4) (Gauge.mk "jobs" (Some 9))
              [OCounter (Counter.mk "jobs" 0 4); OGauge (Gauge.mk "jobs" (Some 9))]
              (λ _, 1700000000000000) 0)
    as (Hne & group & Hcol & _).
  - apply NoDup_singleton.
  - by left.
  - by left.
  - reflexivity.
  - reflexivity.
  - split_and!; [exact Hne|reflexivity|reflexivity|].
    exact (f_equal (λ x, x.1.1.1) Hcol).
Defined.

(** ** Registration *)

Lemma register_try_fails import_string self class_path w e :
  fails_with import_string self class_path w e →
  ∃ σ', MetricsRegistry.register_try import_string self class_path w
        = (Raise e, self, set_heap σ' w).
Proof.
  unfold MetricsRegistry.register_try. intros [->|(cls & -> & Hinit)].
  - exists (w_heap w). by destruct w.
  - destruct (cls_init cls _ _) as [r σ']. simpl in Hinit. subst r. by exists σ'.
Qed.

(** C2 (as the code behaves): a constructor that fails with an exception
    other than [ImportError] makes [register] raise that exception to its
    caller, and no warning is logged. *)
Lemma C2_counterexample :
  let broken := {| cls_init := λ _ σ, (Raise (Exception "no such device"), σ);
                   cls_before_collect := MetricsSet.before_collect |} in
  let import_string := λ _ : string, Ok broken in
  let registry := MetricsRegistry.__init__ None None in
  let w := mk_world [] 0 [] [] in
  fails_with import_string registry "app.metrics.DiskMetrics" w (Exception "no such device") ∧
  MetricsRegistry.register import_string registry "app.metrics.DiskMetrics" w
  = (Raise (Exception "no such device"), registry, w).
Proof. split; [right; eauto|reflexivity]. Qed.

(** C2, amended: when the resolution or the instantiation of an identifier
    that is not registered yet fails, [register] leaves the registry's metric
    sets exactly as they were.  If the failure is an [ImportError], [register]
    returns normally and logs one warning that names the identifier and the
    error; any other exception is raised to the caller and nothing is
    logged. *)
Theorem C2_register_failure_leaves_registry_unchanged
    (import_string : string → result MetricsSetClass)
    (self : MetricsRegistry.t) (class_path : string) (w : world) (e : exn)
    (Hnew : dict_mem class_path (MetricsRegistry._metricsets self) = false)
    (Hfail : fails_with import_string self class_path w e) :
  let res := MetricsRegistry.register import_string self class_path w in
  res.1.2 = self ∧
  MetricsRegistry._metricsets res.1.2 = MetricsRegistry._metricsets self ∧
  w_queue res.2 = w_queue w ∧
  match e with
  | ImportError msg =>
      res.1.1 = Ok tt ∧
      w_log res.2 = w_log w ++
        [(WARNING, "Could not register " +:+ class_path +:+ " metricset: " +:+ msg)]
  | _ => res.1.1 = Raise e ∧ w_log res.2 = w_log w
  end.
Proof.
  destruct (register_try_fails _ _ _ _ _ Hfail) as [σ' Htry].
  unfold MetricsRegistry.register. rewrite Hnew, Htry.
  by destruct e.
Qed.

Lemma C2_witness :
  let import_string := λ path : string,
    Raise (A := MetricsSetClass) (ImportError ("No module named " +:+ path)) in
  let registry := MetricsRegistry.__init__ None None in
  let res := MetricsRegistry.register import_string registry "nope.Metrics"
               (mk_world [] 0 [] []) in
  res.1.1 = Ok tt ∧ res.1.2 = registry ∧
  w_log res.2
  = [(WARNING, "Could not register nope.Metrics metricset: No module named nope.Metrics")].
Proof.
  intros import_string registry res.
  destruct (C2_register_failure_leaves_registry_unchanged import_string registry
              "nope.Metrics" (mk_world [] 0 [] [])
              (ImportError "No module named nope.Metrics") eq_refl
              (or_introl eq_refl)) as (Hreg & _ & _ & Hr & Hlog).
  split_and!; [exact Hr|exact Hreg|exact Hlog].
Defined.

(** ** The collection cycle *)

Lemma forward_queue records w :
  w_queue (MetricsRegistry.forward records w)
  = w_queue w ++ ((λ data, (METRICSET, data)) <$> records).
Proof.
  revert w. induction records as [|r records IH]; intros w; simpl.
  - by rewrite app_nil_r.
  - unfold MetricsRegistry.forward in IH. rewrite IH. simpl. by rewrite <- app_assoc.
Qed.

Lemma forward_log records w : w_log (MetricsRegistry.forward records w) = w_log w.
Proof.
  revert w. induction records as [|r records IH]; intros w; simpl; [done|].
  unfold MetricsRegistry.forward in IH. by rewrite IH.
Qed.

(** The loop itself logs nothing. *)
Lemma collect_loop_log time pats items : ∀ w,
  w_log (MetricsRegistry.collect_loop time pats items w).2 = w_log w.
Proof.
  induction items as [|[name ms] items IH]; intros w; simpl; [done|].
  destruct (MetricsSet.collect _ _ _ _ _ _) as [[[[records|e] self'] σ'] n']; [|done].
  specialize (IH (MetricsRegistry.forward records (set_ticks n' (set_heap σ' w)))).
  destruct (MetricsRegistry.collect_loop _ _ _ _) as [[r rest'] w'].
  simpl in *. by rewrite IH, forward_log.
Qed.

(** The loop stops at the first set whose [collect()] raises. *)
Lemma collect_loop_stops time pats name bad post e self' σ' n' pre : ∀ w pre' w1,
  MetricsRegistry.collect_loop time pats pre w = (Ok tt, pre', w1) →
  MetricsSet.collect (cls_before_collect (ms_class bad)) pats (ms_self bad)
    (w_heap w1) time (w_ticks w1) = (Raise e, self', σ', n') →
  MetricsRegistry.collect_loop time pats (pre ++ (name, bad) :: post) w
  = (Raise e, pre' ++ (name, mk_obj (ms_class bad) self') :: post,
     set_ticks n' (set_heap σ' w1)).
Proof.
  induction pre as [|[name0 ms0] pre IH]; intros w pre' w1 Hpre Hbad; simpl in *.
  - simplify_eq. by rewrite Hbad.
  - destruct (MetricsSet.collect _ _ (ms_self ms0) _ _ _) as [[[[records|e0] s0] σ0] n0];
      [|discriminate].
    destruct (MetricsRegistry.collect_loop time pats pre _) as [[r rest'] w'] eqn:Hrest.
    simplify_eq. by rewrite (IH _ _ _ Hrest Hbad).
Qed.

(** C1 (as the code behaves): with a set whose [collect()] raises
    registered before a healthy one, [MetricsRegistry.collect()] raises, and
    the sample the healthy set would have yielded is not forwarded. *)
Lemma C1_counterexample :
  let broken := {| cls_init := λ _ σ, (Ok MetricsSet.__init__, σ);
                   cls_before_collect := λ _ self σ, (Raise (Exception "read failed"), self, σ) |} in
  let healthy := mk_obj MetricsSet_class (MetricsSet.mk [(("requests", []), Ref 0)] []) in
  let registry := MetricsRegistry.mk
                    [("a.Broken", mk_obj broken MetricsSet.__init__); ("b.Healthy", healthy)]
                    [] [] in
  let w := mk_world [OCounter (Counter.mk "requests" 0 3)] 0 [] [] in
  let time : clock := λ _, 1700000000000000 in
  let res := MetricsRegistry.collect time registry w in
  (MetricsSet.collect MetricsSet.before_collect [] (ms_self healthy) (w_heap w) time 0).1.1.1
  = Ok [mk_record [("requests", mk_sample (Some 3))] 1700000000000000 None] ∧
  res.1.1 = Raise (Exception "read failed") ∧
  w_queue res.2 = [] ∧
  w_log res.2 = [(DEBUG, "Collecting metrics")].
Proof. by split_and!. Qed.

(** C1, amended: when the [collect()] of a registered metric set raises,
    [MetricsRegistry.collect()] raises the same exception to its caller.
    The samples of the sets that come before it in the registry have been
    forwarded to the queue function; the failing set and the sets after it
    contribute nothing in that cycle, and the failure is not logged. *)
Theorem C1_collect_stops_at_failing_set (time : clock) (self : MetricsRegistry.t)
    (pre post : dict string MetricsSetObj) (name : string) (bad : MetricsSetObj)
    (w w1 : world) (before : MetricsRegistry.t)
    (e : exn) (self' : MetricsSet.t) (σ' : heap) (n' : nat)
    (Hsets : MetricsRegistry._metricsets self = pre ++ (name, bad) :: post)
    (Hpre : MetricsRegistry.collect time (MetricsRegistry.set_metricsets pre self) w
            = (Ok tt, before, w1))
    (Hbad : MetricsSet.collect (cls_before_collect (ms_class bad))
              (MetricsRegistry._ignore_patterns self) (ms_self bad)
              (w_heap w1) time (w_ticks w1) = (Raise e, self', σ', n')) :
  let res := MetricsRegistry.collect time self w in
  res.1.1 = Raise e ∧
  MetricsRegistry._metricsets res.1.2
  = MetricsRegistry._metricsets before ++ (name, mk_obj (ms_class bad) self') :: post ∧
  w_queue res.2 = w_queue w1 ∧
  w_log res.2 = w_log w ++ [(DEBUG, "Collecting metrics")].
Proof.
  unfold MetricsRegistry.collect in *. cbn [MetricsRegistry._metricsets
    MetricsRegistry._ignore_patterns MetricsRegistry.set_metricsets] in Hpre.
  rewrite Hsets.
  destruct (MetricsRegistry.collect_loop time _ pre _) as [[r pre'] w0] eqn:Hloop.
  simplify_eq.
  rewrite (collect_loop_stops _ _ _ _ _ _ _ _ _ _ _ _ _ Hloop Hbad).
  cbn. split_and!; try done.
  pose proof (collect_loop_log time (MetricsRegistry._ignore_patterns self) pre
                (logger DEBUG "Collecting metrics" w)) as Hlog.
  by rewrite Hloop in Hlog.
Qed.

Lemma C1_witness :
  let broken := {| cls_init := λ _ σ, (Ok MetricsSet.__init__, σ);
                   cls_before_collect := λ _ self σ, (Raise (Exception "read failed"), self, σ) |} in
  let first := mk_obj MetricsSet_class (MetricsSet.mk [(("requests", []), Ref 0)] []) in
  let last := mk_obj MetricsSet_class (MetricsSet.mk [] [(("load", []), Ref 1)]) in
  let registry := MetricsRegistry.mk
                    [("a.First", first); ("b.Broken", mk_obj broken MetricsSet.__init__);
                     ("c.Last", last)] [] [] in
  let w := mk_world [OCounter (Counter.mk "requests" 0 3); OGauge (Gauge.mk "load" (Some 7))]
             0 [] [] in
  let res := MetricsRegistry.collect (λ _, 1700000000000000) registry w in
  res.1.1 = Raise (Exception "read failed") ∧
  w_queue res.2
  = [(METRICSET, mk_record [("requests", mk_sample (Some 3))] 1700000000000000 None)].
Proof.
  intros broken first last registry w res.
  destruct (C1_collect_stops_at_failing_set (λ _, 1700000000000000) registry
              [("a.First", first)] [("c.Last", last)] "b.Broken"
              (mk_obj broken MetricsSet.__init__) w _ _
              (Exception "read failed") MetricsSet.__init__ (w_heap w) 1%nat
              eq_refl eq_refl eq_refl) as (Hr & _ & Hq & _).
  split; [exact Hr|exact Hq].
Defined.

(** * Further properties *)

(** ** Metric primitives in the store *)

Lemma counter_fold_ops ops : ∀ c,
  fold_left apply_op ops c
  = Counter.mk (Counter.label c) (Counter._initial_value c)
      (Counter.val c + sum_inc ops - sum_dec ops).
Proof.
  induction ops as [|o ops IH]; intros [lb iv v]; simpl.
  - unfold Counter.val; simpl. f_equal. lia.
  - rewrite IH. destruct o; unfold Counter.val; simpl; f_equal; lia.
Qed.

Lemma sum_inc_Permutation ops ops' : ops ≡ₚ ops' → sum_inc ops = sum_inc ops'.
Proof.
  induction 1 as [|o ops ops' _ IH|o1 o2 ops|ops1 ops2 ops3 _ IH1 _ IH2]; simpl.
  - done.
  - destruct o; lia.
  - destruct o1, o2; lia.
  - lia.
Qed.

Lemma sum_dec_Permutation ops ops' : ops ≡ₚ ops' → sum_dec ops = sum_dec ops'.
Proof.
  induction 1 as [|o ops ops' _ IH|o1 o2 ops|ops1 ops2 ops3 _ IH1 _ IH2]; simpl.
  - done.
  - destruct o; lia.
  - destruct o1, o2; lia.
  - lia.
Qed.

(** One write through [h] changes at most the object [h] designates, and
    never its class. *)
Lemma mutate_frame h m (σ : heap) :
  length (mutate h m σ) = length σ ∧
  (∀ l, h ≠ Ref l → mutate h m σ !! l = σ !! l) ∧
  (∀ l, is_counter <$> mutate h m σ !! l = is_counter <$> σ !! l).
Proof.
  assert (Hins : ∀ l0 (o o' : obj), σ !! l0 = Some o → is_counter o' = is_counter o →
    length (<[l0 := o']> σ) = length σ ∧
    (∀ l, Ref l0 ≠ Ref l → <[l0 := o']> σ !! l = σ !! l) ∧
    (∀ l, is_counter <$> <[l0 := o']> σ !! l = is_counter <$> σ !! l)).
  { intros l0 o o' Hl0 Hk. split_and!.
    - apply length_insert.
    - intros l Hne. apply list_lookup_insert_ne. congruence.
    - intros l. destruct (decide (l0 = l)) as [<-|Hne].
      + rewrite list_lookup_insert_eq by (by eapply lookup_lt_Some).
        rewrite Hl0. simpl. by rewrite Hk.
      + by rewrite list_lookup_insert_ne. }
  destruct h as [|l0]; [by destruct m|].
  destruct m; unfold mutate, inc, dec, reset, set_val;
    destruct (σ !! l0) as [[c|g]|] eqn:Hl0; cbn [snd]; try done;
    by eapply Hins.
Qed.

(** X1: calls made through one metric handle ([inc], [dec], [reset], value
    assignments, in any number and order, failing or not) never change the
    size of the store, never change any object other than the one the handle
    designates, and never turn a counter into a gauge or back. *)
Theorem X1_mutators_touch_only_their_metric (h : handle) (ms : list mutator) (σ : heap) :
  length (run_mutators h ms σ) = length σ ∧
  (∀ l, h ≠ Ref l → run_mutators h ms σ !! l = σ !! l) ∧
  (∀ l, is_counter <$> run_mutators h ms σ !! l = is_counter <$> σ !! l).
Proof.
  revert σ. induction ms as [|m ms IH]; intros σ; [done|].
  change (run_mutators h (m :: ms) σ) with (run_mutators h ms (mutate h m σ)).
  destruct (IH (mutate h m σ)) as (Hlen & Hother & Hkind).
  destruct (mutate_frame h m σ) as (Hlen1 & Hother1 & Hkind1).
  split_and!.
  - by rewrite Hlen.
  - intros l Hne. by rewrite Hother, Hother1.
  - intros l. by rewrite Hkind.
Qed.

(** X2: on a counter whose value is an integer, the order of [inc] and
    [dec] calls with integer deltas does not matter: two sequences with the
    same calls leave the same store; and [inc(d)] followed by [dec(d)]
    leaves the store as it was.  (Integer arithmetic is exact; with float
    deltas the order matters.) *)
Theorem X2_counter_calls_commute (σ : heap) (l : nat) (c : Counter.t)
    (ops ops' : list op) (d : Z)
    (Hl : σ !! l = Some (OCounter c)) (Hperm : ops ≡ₚ ops') :
  run_ops (Ref l) ops σ = run_ops (Ref l) ops' σ ∧
  run_ops (Ref l) [Inc d; Dec d] σ = σ.
Proof.
  rewrite !(run_ops_counter l _ c σ Hl), !counter_fold_ops.
  rewrite (sum_inc_Permutation _ _ Hperm), (sum_dec_Permutation _ _ Hperm).
  split; [done|]. apply list_insert_id. rewrite Hl. do 2 f_equal.
  destruct c as [lb iv v]; unfold Counter.val; simpl. f_equal. lia.
Qed.

Lemma X2_witness :
  let σ := [OGauge (Gauge.mk "load" None); OCounter (Counter.mk "hits" 0 10)] in
  run_ops (Ref 1) [Inc 1; Dec 4; Inc 2] σ = run_ops (Ref 1) [Dec 4; Inc 2; Inc 1] σ ∧
  run_ops (Ref 1) [Inc 5; Dec 5] σ = σ.
Proof.
  intros σ.
  apply (X2_counter_calls_commute σ 1 (Counter.mk "hits" 0 10)
           [Inc 1; Dec 4; Inc 2] [Dec 4; Inc 2; Inc 1] 5 eq_refl).
  apply (Permutation_cons_append [Dec 4; Inc 2] (Inc 1)).
Defined.

Lemma run_mutators_counter l ms : ∀ c (σ : heap),
  σ !! l = Some (OCounter c) →
  run_mutators (Ref l) ms σ = <[l := OCounter (fold_left counter_write ms c)]> σ.
Proof.
  induction ms as [|m ms IH]; intros c σ Hl.
  - symmetry. by apply list_insert_id.
  - change (run_mutators (Ref l) (m :: ms) σ)
      with (run_mutators (Ref l) ms (mutate (Ref l) m σ)).
    assert (Hm : mutate (Ref l) m σ = <[l := OCounter (counter_write c m)]> σ).
    { destruct m; unfold mutate, inc, dec, reset, set_val; rewrite Hl; cbn [snd];
        try done. symmetry. by apply list_insert_id. }
    rewrite Hm, (IH (counter_write c m)).
    + apply list_insert_insert_eq.
    + apply list_lookup_insert_eq. by eapply lookup_lt_Some.
Qed.

Lemma run_mutators_gauge l ms : ∀ g (σ : heap),
  σ !! l = Some (OGauge g) →
  run_mutators (Ref l) ms σ = <[l := OGauge (fold_left gauge_write ms g)]> σ.
Proof.
  induction ms as [|m ms IH]; intros g σ Hl.
  - symmetry. by apply list_insert_id.
  - change (run_mutators (Ref l) (m :: ms) σ)
      with (run_mutators (Ref l) ms (mutate (Ref l) m σ)).
    assert (Hm : mutate (Ref l) m σ = <[l := OGauge (gauge_write g m)]> σ).
    { destruct m; unfold mutate, inc, dec, reset, set_val; rewrite Hl; cbn [snd];
        try done; symmetry; by apply list_insert_id. }
    rewrite Hm, (IH (gauge_write g m)).
    + apply list_insert_insert_eq.
    + apply list_lookup_insert_eq. by eapply lookup_lt_Some.
Qed.

Lemma counter_writes_keep_identity ms : ∀ c,
  Counter.label (fold_left counter_write ms c) = Counter.label c ∧
  Counter._initial_value (fold_left counter_write ms c) = Counter._initial_value c.
Proof.
  induction ms as [|m ms IH]; intros c; [done|]. simpl.
  destruct (IH (counter_write c m)) as [-> ->]. by destruct m.
Qed.

Lemma gauge_writes_last ms : ∀ g,
  Gauge.label (fold_left gauge_write ms g) = Gauge.label g ∧
  Gauge.val (fold_left gauge_write ms g) = default (Gauge.val g) (last (assigned ms)).
Proof.
  induction ms as [|m ms IH]; intros g; [done|]. simpl.
  destruct (IH (gauge_write g m)) as [-> ->].
  destruct m; try done. unfold assigned. cbn [omap list_omap].
  rewrite last_cons. split; [done|].
  fold (assigned ms). by destruct (last (assigned ms)).
Qed.

(** X3: whatever calls are made through a counter's handle, the counter
    keeps its label and its initial value; and a [reset] forgets the earlier
    calls: the store after any calls, a [reset] and further [inc] and [dec]
    calls is the store after the [reset] and those further calls alone. *)
Theorem X3_counter_reset_forgets_history (σ : heap) (l : nat) (c : Counter.t)
    (ms : list mutator) (ops : list op)
    (Hl : σ !! l = Some (OCounter c)) :
  (∃ c', run_mutators (Ref l) ms σ !! l = Some (OCounter c') ∧
         Counter.label c' = Counter.label c ∧
         Counter._initial_value c' = Counter._initial_value c) ∧
  run_ops (Ref l) ops (run_mutators (Ref l) (ms ++ [MReset]) σ)
  = run_ops (Ref l) ops (run_mutators (Ref l) [MReset] σ).
Proof.
  assert (Hlt : (l < length σ)%nat) by (by eapply lookup_lt_Some).
  split.
  - rewrite (run_mutators_counter l ms c σ Hl).
    eexists. split; [by apply list_lookup_insert_eq|].
    apply counter_writes_keep_identity.
  - rewrite !(run_mutators_counter l _ c σ Hl), fold_left_app. do 2 f_equal.
    cbn [fold_left counter_write]. unfold Counter.reset.
    by destruct (counter_writes_keep_identity ms c) as [-> ->].
Qed.

Lemma X3_witness :
  let σ := [OCounter (Counter.mk "jobs" 5 40)] in
  run_ops (Ref 0) [Inc 2; Dec 1] (run_mutators (Ref 0) [MInc 7; MSet (Some 0); MReset] σ)
  = [OCounter (Counter.mk "jobs" 5 6)].
Proof.
  intros σ.
  exact (proj2 (X3_counter_reset_forgets_history σ 0 (Counter.mk "jobs" 5 40)
                  [MInc 7; MSet (Some 0)] [Inc 2; Dec 1] eq_refl)).
Defined.

(** X4: a gauge reads as the value assigned last (last write wins), or as
    its value before the calls when none of them is an assignment; [inc],
    [dec] and [reset] calls on a gauge, which fail, do not disturb it, and
    the label never changes. *)
Theorem X4_gauge_last_write_wins (σ : heap) (l : nat) (g : Gauge.t) (ms : list mutator)
    (Hl : σ !! l = Some (OGauge g)) :
  val (Ref l) (run_mutators (Ref l) ms σ) = default (Gauge.val g) (last (assigned ms)) ∧
  ∃ g', run_mutators (Ref l) ms σ !! l = Some (OGauge g') ∧ Gauge.label g' = Gauge.label g.
Proof.
  assert (Hlt : (l < length σ)%nat) by (by eapply lookup_lt_Some).
  rewrite (run_mutators_gauge l ms g σ Hl).
  destruct (gauge_writes_last ms g) as [Hlabel Hval].
  split.
  - unfold val. rewrite list_lookup_insert_eq by done. exact Hval.
  - eexists. split; [by apply list_lookup_insert_eq|done].
Qed.

Lemma X4_witness :
  let σ := [OGauge (Gauge.__init__ "load")] in
  val (Ref 0) σ = None ∧
  val (Ref 0) (run_mutators (Ref 0) [MSet (Some 3); MInc 1; MSet (Some 8); MReset] σ) = Some 8.
Proof.
  intros σ. split; [reflexivity|].
  exact (proj1 (X4_gauge_last_write_wins σ 0 (Gauge.__init__ "load")
                  [MSet (Some 3); MInc 1; MSet (Some 8); MReset] eq_refl)).
Defined.

(** ** Metric sets and the store *)

Lemma mutate_describe h m (σ : heap) l :
  describe <$> mutate h m σ !! l = describe <$> σ !! l.
Proof.
  assert (Hins : ∀ l0 (o o' : obj), σ !! l0 = Some o → describe o' = describe o →
    describe <$> <[l0 := o']> σ !! l = describe <$> σ !! l).
  { intros l0 o o' Hl0 Hk. destruct (decide (l0 = l)) as [<-|Hne].
    - rewrite list_lookup_insert_eq by (by eapply lookup_lt_Some).
      rewrite Hl0. simpl. by rewrite Hk.
    - by rewrite list_lookup_insert_ne. }
  destruct h as [|l0]; [by destruct m|].
  destruct m; unfold mutate, inc, dec, reset, set_val;
    destruct (σ !! l0) as [[c|g]|] eqn:Hl0; cbn [snd]; try done;
    by eapply Hins.
Qed.

Lemma run_mutators_describe h ms : ∀ (σ : heap) l,
  describe <$> run_mutators h ms σ !! l = describe <$> σ !! l.
Proof.
  induction ms as [|m ms IH]; intros σ l; [done|].
  change (run_mutators h (m :: ms) σ) with (run_mutators h ms (mutate h m σ)).
  by rewrite IH, mutate_describe.
Qed.

Lemma typed_weaken b (d : dict key handle) (σ σ' : heap) :
  (∀ l o, σ !! l = Some o → describe <$> σ' !! l = Some (describe o)) →
  typed b d σ → typed b d σ'.
Proof.
  intros Hext Ht name lk l Hin. specialize (Ht name lk l Hin).
  destruct (σ !! l) as [o|] eqn:Hl; [|done].
  rewrite (Hext l o Hl). exact Ht.
Qed.

Lemma typed_snoc b (d : dict key handle) (σ : heap) name lk o :
  typed b d σ → describe o = (b, name) →
  typed b (d ++ [((name, lk), Ref (length σ))]) (σ ++ [o]).
Proof.
  intros Ht Ho name' lk' l Hin. apply elem_of_app in Hin as [Hin|Hin].
  - specialize (Ht name' lk' l Hin).
    destruct (σ !! l) as [o'|] eqn:Hl; [|done].
    by rewrite (lookup_app_l_Some _ _ _ _ Hl).
  - apply list_elem_of_singleton in Hin. simplify_eq.
    rewrite list_lookup_middle by done. simpl. by rewrite Ho.
Qed.

Lemma typed_snoc_noop b (d : dict key handle) (σ : heap) k :
  typed b d σ → typed b (d ++ [(k, noop_metric)]) σ.
Proof.
  intros Ht name lk l Hin. apply elem_of_app in Hin as [Hin|Hin]; [by eapply Ht|].
  apply list_elem_of_singleton in Hin. simplify_eq.
Qed.

Lemma refs_of_bound b (d : dict key handle) (σ : heap) l :
  typed b d σ → l ∈ refs_of d → (l < length σ)%nat.
Proof.
  intros Ht Hin. apply list_elem_of_omap in Hin as ([[name lk] h] & Hin & Hh).
  destruct h as [|l']; simplify_eq/=.
  specialize (Ht name lk l Hin).
  destruct (σ !! l) as [o|] eqn:Hl; [|done]. by eapply lookup_lt_Some.
Qed.

Lemma refs_of_snoc (d : dict key handle) k h :
  refs_of (d ++ [(k, h)])
  = refs_of d ++ match h with Ref l => [l] | noop_metric => [] end.
Proof. unfold refs_of. rewrite omap_app. by destruct h. Qed.

Lemma refs_of_inj (d : dict key handle) k1 k2 l :
  NoDup (refs_of d) → (k1, Ref l) ∈ d → (k2, Ref l) ∈ d →
  NoDup (dict_keys d) → k1 = k2.
Proof.
  induction d as [|[k h] d IH]; intros Hrefs H1 H2 Hkeys.
  { by apply elem_of_nil in H1. }
  apply NoDup_cons in Hkeys as [Hk Hkeys].
  assert (Hhere : ∀ k', (k', Ref l) ∈ d → l ∈ refs_of d).
  { intros k' Hin. apply list_elem_of_omap. by exists (k', Ref l). }
  apply elem_of_cons in H1 as [H1|H1], H2 as [H2|H2]; simplify_eq.
  - done.
  - unfold refs_of in Hrefs. cbn in Hrefs. apply NoDup_cons in Hrefs as [Hl _].
    destruct Hl. by eapply Hhere.
  - unfold refs_of in Hrefs. cbn in Hrefs. apply NoDup_cons in Hrefs as [Hl _].
    destruct Hl. by eapply Hhere.
  - apply IH; try done. unfold refs_of in Hrefs. cbn in Hrefs.
    destruct h; [done|]. by apply NoDup_cons in Hrefs as [_ ?].
Qed.

Lemma dict_keys_snoc_NoDup {V} (d : dict key V) k v :
  NoDup (dict_keys d) → k ∉ dict_keys d → NoDup (dict_keys (d ++ [(k, v)])).
Proof.
  intros Hnd Hk. unfold dict_keys. rewrite fmap_app. apply NoDup_app.
  split_and!; [done| |apply NoDup_singleton].
  by intros x Hx ->%list_elem_of_singleton.
Qed.

Lemma consistent_init (σ : heap) : consistent MetricsSet.__init__ σ.
Proof.
  unfold consistent; simpl. split_and!; try constructor;
    intros name lk l Hin; by apply elem_of_nil in Hin.
Qed.

Lemma consistent_counter pats self name labels (σ : heap) h self' σ' :
  consistent self σ →
  MetricsSet.counter pats self name labels σ = (h, self', σ') →
  consistent self' σ'.
Proof.
  intros (Hkc & Hkg & Hrc & Hrg & Htc & Htg). unfold MetricsSet.counter.
  destruct (dict_get _ (MetricsSet._counters self)) as [c|] eqn:Hget.
  { intros ?; by simplify_eq. }
  apply dict_get_None_notin in Hget as Hnotin.
  destruct (MetricsSet.ignored pats name); unfold alloc; intros ?; simplify_eq;
    unfold consistent; cbn [MetricsSet._counters MetricsSet._gauges];
    rewrite dict_keys_set_notin by done.
  - split_and!; try done.
    + by apply dict_keys_snoc_NoDup.
    + by rewrite refs_of_snoc, app_nil_r.
    + by apply typed_snoc_noop.
  - split_and!; try done.
    + by apply dict_keys_snoc_NoDup.
    + rewrite refs_of_snoc. apply NoDup_app. split_and!; [done| |apply NoDup_singleton].
      intros l Hl ->%list_elem_of_singleton.
      pose proof (refs_of_bound _ _ _ _ Htc Hl). lia.
    + by apply typed_snoc.
    + eapply typed_weaken; [|done]. intros l o Hl.
      by rewrite (lookup_app_l_Some _ _ _ _ Hl).
Qed.

Lemma consistent_gauge pats self name labels (σ : heap) h self' σ' :
  consistent self σ →
  MetricsSet.gauge pats self name labels σ = (h, self', σ') →
  consistent self' σ'.
Proof.
  intros (Hkc & Hkg & Hrc & Hrg & Htc & Htg). unfold MetricsSet.gauge.
  destruct (dict_get _ (MetricsSet._gauges self)) as [c|] eqn:Hget.
  { intros ?; by simplify_eq. }
  apply dict_get_None_notin in Hget as Hnotin.
  destruct (MetricsSet.ignored pats name); unfold alloc; intros ?; simplify_eq;
    unfold consistent; cbn [MetricsSet._counters MetricsSet._gauges];
    rewrite dict_keys_set_notin by done.
  - split_and!; try done.
    + by apply dict_keys_snoc_NoDup.
    + by rewrite refs_of_snoc, app_nil_r.
    + by apply typed_snoc_noop.
  - split_and!; try done.
    + by apply dict_keys_snoc_NoDup.
    + rewrite refs_of_snoc. apply NoDup_app. split_and!; [done| |apply NoDup_singleton].
      intros l Hl ->%list_elem_of_singleton.
      pose proof (refs_of_bound _ _ _ _ Htg Hl). lia.
    + eapply typed_weaken; [|done]. intros l o Hl.
      by rewrite (lookup_app_l_Some _ _ _ _ Hl).
    + by apply typed_snoc.
Qed.

Lemma consistent_mutators self (σ : heap) h ms :
  consistent self σ → consistent self (run_mutators h ms σ).
Proof.
  intros (Hkc & Hkg & Hrc & Hrg & Htc & Htg). unfold consistent.
  split_and!; try done; intros name lk l Hin;
    rewrite run_mutators_describe; eauto.
Qed.

(** X5: a metric set filled through [counter] and [gauge] always fits
    the store: starting from an empty set, after any [counter] or [gauge]
    call, and after any calls made through any metric handle, every stored
    reference designates an object of the right class ([Counter] under
    [_counters], [Gauge] under [_gauges]) whose label is the metric name, and
    no object is stored under two keys. *)
Theorem X5_metric_set_stays_consistent (pats : list pattern) (self : MetricsSet.t)
    (σ : heap) (Hself : consistent self σ) :
  consistent MetricsSet.__init__ σ ∧
  (∀ name labels, consistent (MetricsSet.counter pats self name labels σ).1.2
                             (MetricsSet.counter pats self name labels σ).2) ∧
  (∀ name labels, consistent (MetricsSet.gauge pats self name labels σ).1.2
                             (MetricsSet.gauge pats self name labels σ).2) ∧
  (∀ h ms, consistent self (run_mutators h ms σ)).
Proof.
  split_and!.
  - apply consistent_init.
  - intros name labels.
    destruct (MetricsSet.counter pats self name labels σ) as [[h self'] σ'] eqn:Hc.
    by eapply consistent_counter.
  - intros name labels.
    destruct (MetricsSet.gauge pats self name labels σ) as [[h self'] σ'] eqn:Hc.
    by eapply consistent_gauge.
  - intros h ms. by apply consistent_mutators.
Qed.

Lemma X5_witness :
  let '(_, self1, σ1) := MetricsSet.counter [] MetricsSet.__init__ "hits" [] [] in
  let '(hg, self2, σ2) := MetricsSet.gauge [] self1 "load" [("cpu", PInt 0)] σ1 in
  consistent self2 (run_mutators hg [MSet (Some 4)] σ2).
Proof.
  pose proof (consistent_init []) as H0.
  destruct (X5_metric_set_stays_consistent [] MetricsSet.__init__ [] H0)
    as (_ & H1 & _). specialize (H1 "hits" []).
  destruct (X5_metric_set_stays_consistent [] _ _ H1) as (_ & _ & H2 & _).
  specialize (H2 "load" [("cpu", PInt 0)]).
  destruct (X5_metric_set_stays_consistent [] _ _ H2) as (_ & _ & _ & H3).
  exact (H3 (Ref 1) [MSet (Some 4)]).
Defined.

(** X6: [counter] and [gauge] only ever add: the handle they return is
    stored under the key of the call, every metric stored before is still
    stored under its key, [counter] leaves the gauges alone and [gauge] the
    counters, and the store is either unchanged or extended by exactly one
    new object, a counter at 0 or a gauge without value, labelled with the
    name. *)
Theorem X6_counter_and_gauge_only_add (pats : list pattern) (self : MetricsSet.t)
    (name : string) (labels : dict string pyval) (σ : heap) :
  let c := MetricsSet.counter pats self name labels σ in
  let g := MetricsSet.gauge pats self name labels σ in
  let k := (name, MetricsSet._labels_to_key labels) in
  (dict_get k (MetricsSet._counters c.1.2) = Some c.1.1 ∧
   MetricsSet._gauges c.1.2 = MetricsSet._gauges self ∧
   (∀ k0 h0, dict_get k0 (MetricsSet._counters self) = Some h0 →
             dict_get k0 (MetricsSet._counters c.1.2) = Some h0) ∧
   (c.2 = σ ∨ c.2 = σ ++ [OCounter (Counter.mk name 0 0)] ∧ c.1.1 = Ref (length σ))) ∧
  (dict_get k (MetricsSet._gauges g.1.2) = Some g.1.1 ∧
   MetricsSet._counters g.1.2 = MetricsSet._counters self ∧
   (∀ k0 h0, dict_get k0 (MetricsSet._gauges self) = Some h0 →
             dict_get k0 (MetricsSet._gauges g.1.2) = Some h0) ∧
   (g.2 = σ ∨ g.2 = σ ++ [OGauge (Gauge.mk name None)] ∧ g.1.1 = Ref (length σ))).
Proof.
  intros c g k. split.
  - destruct c as [[h self'] σ'] eqn:Hc. by eapply counter_effect.
  - destruct g as [[h self'] σ'] eqn:Hg. by eapply gauge_effect.
Qed.

(** X7: two [counter] calls with different keys never return the same
    real counter, and a [gauge] call never returns an object that a
    [counter] call returned. *)
Theorem X7_distinct_keys_distinct_instances (pats : list pattern) (self : MetricsSet.t)
    (σ : heap) (n1 : string) (L1 : dict string pyval) (a : nat)
    (self1 : MetricsSet.t) (σ1 : heap)
    (Hself : consistent self σ)
    (Hfirst : MetricsSet.counter pats self n1 L1 σ = (Ref a, self1, σ1)) :
  (∀ n2 L2, (n1, MetricsSet._labels_to_key L1) ≠ (n2, MetricsSet._labels_to_key L2) →
            (MetricsSet.counter pats self1 n2 L2 σ1).1.1 ≠ Ref a) ∧
  (∀ n2 L2, (MetricsSet.gauge pats self1 n2 L2 σ1).1.1 ≠ Ref a).
Proof.
  pose proof (consistent_counter _ _ _ _ _ _ _ _ Hself Hfirst) as Hself1.
  destruct (counter_effect _ _ _ _ _ _ _ _ Hfirst) as (Hk1 & _ & _ & _).
  split.
  - intros n2 L2 Hne.
    destruct (MetricsSet.counter pats self1 n2 L2 σ1) as [[h2 self2] σ2] eqn:Hsecond.
    cbn [fst]. intros ->.
    pose proof (consistent_counter _ _ _ _ _ _ _ _ Hself1 Hsecond)
      as (Hkc & _ & Hrc & _).
    destruct (counter_effect _ _ _ _ _ _ _ _ Hsecond) as (Hk2 & _ & Hkeep & _).
    apply Hne. eapply (refs_of_inj (MetricsSet._counters self2)); try done.
    + apply dict_get_Some_In. by apply Hkeep.
    + by apply dict_get_Some_In.
  - intros n2 L2.
    destruct (MetricsSet.gauge pats self1 n2 L2 σ1) as [[h2 self2] σ2] eqn:Hsecond.
    cbn [fst]. intros ->.
    pose proof (consistent_gauge _ _ _ _ _ _ _ _ Hself1 Hsecond)
      as (_ & _ & _ & _ & Htc & Htg).
    destruct (gauge_effect _ _ _ _ _ _ _ _ Hsecond) as (Hk2 & Hsame & _ & _).
    rewrite <- Hsame in Hk1.
    pose proof (Htc _ _ _ (dict_get_Some_In _ _ _ Hk1)) as H1.
    pose proof (Htg _ _ _ (dict_get_Some_In _ _ _ Hk2)) as H2.
    rewrite H1 in H2. discriminate.
Qed.

Lemma X7_witness :
  (MetricsSet.counter [] (MetricsSet.counter [] MetricsSet.__init__ "hits" [] []).1.2
     "hits" [("code", PInt 200)] [OCounter (Counter.mk "hits" 0 0)]).1.1 ≠ Ref 0.
Proof.
  destruct (X7_distinct_keys_distinct_instances [] MetricsSet.__init__ [] "hits" [] 0
              _ _ (consistent_init []) eq_refl) as [H _].
  apply (H "hits" [("code", PInt 200)]). discriminate.
Defined.

(** X8: a handle returned by [counter] designates a [Counter] for good:
    after any calls on it, [inc], [dec] and [reset] succeed and return the
    handle, and an assignment to [val] raises [AttributeError] and changes
    nothing.  A handle returned by [gauge] designates a [Gauge]: an
    assignment succeeds, and [inc], [dec] and [reset] raise
    [AttributeError] and change nothing. *)
Theorem X8_handles_keep_their_class (pats : list pattern) (self : MetricsSet.t)
    (σ : heap) (name : string) (labels : dict string pyval) (ms : list mutator)
    (d : Z) (v : option Z)
    (Hself : consistent self σ) :
  let raises {A} (res : result A * heap) (σ0 : heap) :=
    ∃ msg, res = (Raise (AttributeError msg), σ0) in
  (∀ l self' σ', MetricsSet.counter pats self name labels σ = (Ref l, self', σ') →
     let σ'' := run_mutators (Ref l) ms σ' in
     (inc (Ref l) d σ'').1 = Ok (RetObj (Ref l)) ∧
     (dec (Ref l) d σ'').1 = Ok (RetObj (Ref l)) ∧
     (reset (Ref l) σ'').1 = Ok (RetObj (Ref l)) ∧
     raises (set_val (Ref l) v σ'') σ'') ∧
  (∀ l self' σ', MetricsSet.gauge pats self name labels σ = (Ref l, self', σ') →
     let σ'' := run_mutators (Ref l) ms σ' in
     (set_val (Ref l) v σ'').1 = Ok tt ∧
     raises (inc (Ref l) d σ'') σ'' ∧
     raises (dec (Ref l) d σ'') σ'' ∧
     raises (reset (Ref l) σ'') σ'').
Proof.
  intros raises. split; intros l self' σ' Hcall σ''.
  - pose proof (consistent_counter _ _ _ _ _ _ _ _ Hself Hcall) as (_ & _ & _ & _ & Htc & _).
    destruct (counter_effect _ _ _ _ _ _ _ _ Hcall) as (Hk & _).
    pose proof (Htc _ _ _ (dict_get_Some_In _ _ _ Hk)) as Hd.
    rewrite <- (run_mutators_describe (Ref l) ms) in Hd. fold σ'' in Hd.
    unfold raises, inc, dec, reset, set_val.
    destruct (σ'' !! l) as [[c|g]|]; simplify_eq/=. split_and!; eauto.
  - pose proof (consistent_gauge _ _ _ _ _ _ _ _ Hself Hcall) as (_ & _ & _ & _ & _ & Htg).
    destruct (gauge_effect _ _ _ _ _ _ _ _ Hcall) as (Hk & _).
    pose proof (Htg _ _ _ (dict_get_Some_In _ _ _ Hk)) as Hd.
    rewrite <- (run_mutators_describe (Ref l) ms) in Hd. fold σ'' in Hd.
    unfold raises, inc, dec, reset, set_val.
    destruct (σ'' !! l) as [[c|g]|]; simplify_eq/=. split_and!; eauto.
Qed.

Lemma X8_witness :
  let '(h, _, σ') := MetricsSet.gauge [] MetricsSet.__init__ "load" [] [] in
  let σ'' := run_mutators h [MSet (Some 2)] σ' in
  (set_val h (Some 3) σ'').1 = Ok tt ∧
  ∃ msg, inc h 1 σ'' = (Raise (AttributeError msg), σ'').
Proof.
  destruct (X8_handles_keep_their_class [] MetricsSet.__init__ [] "load" []
              [MSet (Some 2)] 1 (Some 3) (consistent_init [])) as [_ H].
  destruct (H 0%nat _ _ eq_refl) as (H1 & H2 & _).
  split; [exact H1|exact H2].
Defined.

(** X9: whether a name is ignored is decided when its key is first
    created and never again: a later [counter] (or [gauge]) call for a
    stored key returns the stored instance and changes nothing, whatever
    the ignore patterns are by then. *)
Theorem X9_ignore_decision_is_made_once (pats pats' : list pattern) (self : MetricsSet.t)
    (name : string) (labels : dict string pyval) (σ : heap) :
  let c := MetricsSet.counter pats self name labels σ in
  let g := MetricsSet.gauge pats self name labels σ in
  MetricsSet.counter pats' c.1.2 name labels c.2 = c ∧
  MetricsSet.gauge pats' g.1.2 name labels g.2 = g.
Proof.
  intros c g. split.
  - destruct c as [[h self'] σ'] eqn:Hc.
    destruct (counter_effect _ _ _ _ _ _ _ _ Hc) as (Hk & _).
    cbn [fst snd]. unfold MetricsSet.counter at 1. by rewrite Hk.
  - destruct g as [[h self'] σ'] eqn:Hg.
    destruct (gauge_effect _ _ _ _ _ _ _ _ Hg) as (Hk & _).
    cbn [fst snd]. unfold MetricsSet.gauge at 1. by rewrite Hk.
Qed.

Lemma others_are_real_set pats (d : dict key handle) k h :
  others_are_real pats d →
  (MetricsSet.ignored pats k.1 = false → h ≠ noop_metric) →
  others_are_real pats (dict_set k h d).
Proof.
  intros Hd Hh k' h' Hg Hi. destruct (decide (k' = k)) as [->|Hne].
  - rewrite dict_get_set_eq in Hg. simplify_eq. auto.
  - rewrite dict_get_set_ne in Hg by done. eauto.
Qed.

Lemma built_by_others_are_real pats self :
  built_by pats self →
  others_are_real pats (MetricsSet._counters self) ∧
  others_are_real pats (MetricsSet._gauges self).
Proof.
  induction 1 as [|self name labels σ _ [IHc IHg]|self name labels σ _ [IHc IHg]].
  - split; intros k h Hg; discriminate.
  - unfold MetricsSet.counter.
    destruct (dict_get _ (MetricsSet._counters self)); [done|].
    destruct (MetricsSet.ignored pats name) eqn:Hi; cbn; split; try done;
      apply others_are_real_set; try done; cbn; congruence.
  - unfold MetricsSet.gauge.
    destruct (dict_get _ (MetricsSet._gauges self)); [done|].
    destruct (MetricsSet.ignored pats name) eqn:Hi; cbn; split; try done;
      apply others_are_real_set; try done; cbn; congruence.
Qed.

Lemma not_matching_is_not_ignored pats name :
  (∀ p, p ∈ pats → pattern_match p name = false) → MetricsSet.ignored pats name = false.
Proof.
  intros Hall. unfold MetricsSet.ignored. destruct pats as [|q pats]; [done|].
  apply not_true_is_false. intros (p & Hin & Hm)%existsb_exists.
  apply list_elem_of_In in Hin. rewrite (Hall p Hin) in Hm. discriminate.
Qed.

(** X10: on a metric set of a registry none of whose ignore patterns
    matches [name] (in particular when there are no patterns),
    [counter(name, labels)] and [gauge(name, labels)] return a real metric,
    never the no-op one. *)
Theorem X10_unmatched_name_yields_real_metric (pats : list pattern)
    (self : MetricsSet.t) (name : string) (labels : dict string pyval) (σ : heap)
    (Hbuilt : built_by pats self)
    (Hnone : ∀ p, p ∈ pats → pattern_match p name = false) :
  (∃ l, (MetricsSet.counter pats self name labels σ).1.1 = Ref l) ∧
  (∃ l, (MetricsSet.gauge pats self name labels σ).1.1 = Ref l).
Proof.
  pose proof (not_matching_is_not_ignored _ _ Hnone) as Hi.
  destruct (built_by_others_are_real _ _ Hbuilt) as [Hc Hg].
  split.
  - unfold MetricsSet.counter.
    destruct (dict_get _ (MetricsSet._counters self)) as [h|] eqn:Hget.
    + specialize (Hc _ _ Hget Hi). destruct h; [done|eauto].
    + rewrite Hi. cbn. eauto.
  - unfold MetricsSet.gauge.
    destruct (dict_get _ (MetricsSet._gauges self)) as [h|] eqn:Hget.
    + specialize (Hg _ _ Hget Hi). destruct h; [done|eauto].
    + rewrite Hi. cbn. eauto.
Qed.

Lemma X10_witness :
  let pats := [{| pattern_match := String.prefix "db." |}] in
  ∃ l, (MetricsSet.counter pats MetricsSet.__init__ "requests" [] []).1.1 = Ref l.
Proof.
  intros pats.
  refine (proj1 (X10_unmatched_name_yields_real_metric pats MetricsSet.__init__
                   "requests" [] [] (built_init pats) _)).
  intros p ->%list_elem_of_singleton. reflexivity.
Defined.

(** ** Label keys, continued *)

Global Instance pair_le_trans : Transitive pair_le.
Proof. intros p q r. unfold pair_le. apply transitivity. Qed.

Lemma labels_to_key_as_text (L : dict string pyval) :
  MetricsSet._labels_to_key L = as_text <$> MetricsSet.sorted L.
Proof. done. Qed.

Lemma labels_to_key_Sorted (L : dict string pyval) :
  Sorted pair_le (MetricsSet._labels_to_key L).
Proof.
  rewrite labels_to_key_as_text.
  apply (Sorted_fmap _ MetricsSet.item_le); [done|].
  apply Sorted_merge_sort, _.
Qed.

Lemma labels_to_key_Permutation_as_text (L : dict string pyval) :
  MetricsSet._labels_to_key L ≡ₚ as_text <$> L.
Proof.
  rewrite labels_to_key_as_text. unfold MetricsSet.sorted.
  by rewrite merge_sort_Permutation.
Qed.

Lemma dict_keys_as_text (L : dict string pyval) :
  dict_keys (as_text <$> L) = dict_keys L.
Proof. unfold dict_keys. rewrite <- list_fmap_compose. by apply list_fmap_ext. Qed.

(** X11: the label key of a mapping is its canonical form: it holds
    exactly the label names of the mapping, each with the text of its value,
    ordered by label name; so it has one pair per label, and the empty
    mapping has the empty key. *)
Theorem X11_label_key_is_canonical (L : dict string pyval) :
  Sorted pair_le (MetricsSet._labels_to_key L) ∧
  MetricsSet._labels_to_key L ≡ₚ as_text <$> L ∧
  length (MetricsSet._labels_to_key L) = length L ∧
  (NoDup (dict_keys L) → NoDup (dict_keys (MetricsSet._labels_to_key L))) ∧
  (MetricsSet._labels_to_key L = [] ↔ L = []).
Proof.
  pose proof (labels_to_key_Permutation_as_text L) as Hp.
  split_and!.
  - apply labels_to_key_Sorted.
  - done.
  - by rewrite Hp, length_fmap.
  - intros Hnd. unfold dict_keys. rewrite Hp. fold (dict_keys (as_text <$> L)).
    by rewrite dict_keys_as_text.
  - split.
    + intros Hnil. rewrite Hnil in Hp.
      apply Permutation_nil in Hp. by apply fmap_nil_inv in Hp.
    + by intros ->.
Qed.

Lemma X11_witness :
  NoDup (dict_keys (MetricsSet._labels_to_key [("b", PBool true); ("a", PNone)])) ∧
  MetricsSet._labels_to_key [("b", PBool true); ("a", PNone)] = [("a", "None"); ("b", "True")].
Proof.
  split; [|reflexivity].
  apply (X11_label_key_is_canonical [("b", PBool true); ("a", PNone)]).
  apply (bool_decide_unpack _). vm_compute. exact I.
Defined.

(** X12: label values are compared by their text.  Two label mappings
    give the same key, and so address the same metric, exactly when they
    have the same label names with values of the same text, in any order:
    the number 200 and the string "200" are the same label value. *)
Theorem X12_label_values_compare_by_text (L1 L2 : dict string pyval)
    (Hkeys : NoDup (dict_keys L1)) :
  MetricsSet._labels_to_key L1 = MetricsSet._labels_to_key L2
  ↔ as_text <$> L1 ≡ₚ as_text <$> L2.
Proof.
  split.
  - intros Heq. rewrite <- !labels_to_key_Permutation_as_text. by rewrite Heq.
  - intros Hperm.
    assert (Hnd : NoDup (dict_keys (as_text <$> L1))) by (by rewrite dict_keys_as_text).
    apply (Sorted_unique_strong pair_le).
    + intros p q Hp Hq Hpq Hqp.
      rewrite labels_to_key_Permutation_as_text in Hp, Hq. rewrite <- Hperm in Hq.
      apply (dict_items_inj (as_text <$> L1)); [done..|].
      unfold pair_le in *. by apply (anti_symm String.le).
    + apply labels_to_key_Sorted.
    + apply labels_to_key_Sorted.
    + by rewrite !labels_to_key_Permutation_as_text.
Qed.

Lemma X12_witness :
  MetricsSet._labels_to_key [("code", PInt 200); ("ok", PBool true)]
  = MetricsSet._labels_to_key [("ok", PStr "True"); ("code", PStr "200")].
Proof.
  apply X12_label_values_compare_by_text.
  - apply (bool_decide_unpack _). vm_compute. exact I.
  - change (as_text <$> [("code", PInt 200); ("ok", PBool true)])
      with [("code", "200"); ("ok", "True")].
    apply perm_swap.
Defined.

(** ** Collection of one metric set, continued *)

Lemma collect_base pats self (σ : heap) (time : clock) n :
  MetricsSet.collect MetricsSet.before_collect pats self σ time n
  = (Ok (MetricsSet.make_result (time n) <$> MetricsSet.collect_samples self σ),
     self, σ, S n).
Proof. done. Qed.

Lemma group_sample_add_samples_noop (σ : heap) name lk (d : dict key handle) : ∀ acc,
  (∀ h, ((name, lk), h) ∈ d → h = noop_metric) →
  group_sample (fold_left (MetricsSet.add_sample σ) d acc) lk name
  = group_sample acc lk name.
Proof.
  induction d as [|[[name' lk'] h] d IH]; intros acc Hnoop; [done|].
  simpl. rewrite IH by (intros h0 Hin; apply Hnoop; by right).
  destruct (decide ((name', lk') = (name, lk))) as [Heq|Hne].
  - simplify_eq. by rewrite (Hnoop h) by (by left).
  - by apply group_sample_add_ne.
Qed.

Lemma group_sample_record (G : groups) lk name s ts :
  group_sample G lk name = Some s →
  ∃ r, r ∈ MetricsSet.make_result ts <$> G ∧
       tags r = tags_for lk ∧ timestamp r = ts ∧
       dict_get name (samples r) = Some s.
Proof.
  unfold group_sample. intros Hs.
  destruct (dict_get lk G) as [group|] eqn:Hget; [|discriminate].
  exists (MetricsSet.make_result ts (lk, group)). split_and!; try done.
  apply list_elem_of_fmap_2. by apply dict_get_Some_In.
Qed.

(** X13: [collect()] reports every real metric.  For each gauge that is
    not the no-op metric there is a record with the tags of its label key
    in which its name carries its current value; the same holds for each
    counter that is not the no-op metric, unless a real gauge is stored
    under the same name and label key. *)
Theorem X13_collect_reports_every_real_metric (pats : list pattern) (self : MetricsSet.t)
    (σ : heap) (time : clock) (n : nat) (name : string) (lk : labelkey) (l : nat)
    (Hcounters : NoDup (dict_keys (MetricsSet._counters self)))
    (Hgauges : NoDup (dict_keys (MetricsSet._gauges self))) :
  let reported records :=
    ∃ r, r ∈ records ∧ tags r = tags_for lk ∧ timestamp r = time n ∧
         dict_get name (samples r) = Some (mk_sample (val (Ref l) σ)) in
  ∃ records,
    MetricsSet.collect MetricsSet.before_collect pats self σ time n
    = (Ok records, self, σ, S n) ∧
    (((name, lk), Ref l) ∈ MetricsSet._gauges self → reported records) ∧
    (((name, lk), Ref l) ∈ MetricsSet._counters self →
     (∀ h, ((name, lk), h) ∈ MetricsSet._gauges self → h = noop_metric) →
     reported records).
Proof.
  intros reported. eexists. split; [apply collect_base|].
  assert (Hrec : ∀ s, group_sample (MetricsSet.collect_samples self σ) lk name = Some s →
            s = mk_sample (val (Ref l) σ) →
            reported (MetricsSet.make_result (time n) <$> MetricsSet.collect_samples self σ)).
  { intros s Hs ->.
    destruct (group_sample_record _ _ _ _ (time n) Hs) as (r & Hr & Ht & Hts & Hsm).
    exists r. by split_and!. }
  split.
  - intros Hin. eapply Hrec; [|done]. unfold MetricsSet.collect_samples.
    by apply group_sample_add_samples_in.
  - intros Hin Hnoop. eapply Hrec; [|done]. unfold MetricsSet.collect_samples.
    rewrite group_sample_add_samples_noop by done.
    by apply group_sample_add_samples_in.
Qed.

Lemma X13_witness :
  let σ := [OCounter (Counter.mk "hits" 0 3); OGauge (Gauge.mk "load" (Some 7))] in
  let self := MetricsSet.mk [(("hits", [("code", "200")]), Ref 0)]
                            [(("load", []), Ref 1); (("hits", [("code", "200")]), noop_metric)] in
  ∃ records,
    (MetricsSet.collect MetricsSet.before_collect [] self σ (λ _, 5) 0).1.1.1 = Ok records ∧
    ∃ r, r ∈ records ∧ tags r = Some [("code", "200")] ∧ timestamp r = 5 ∧
         dict_get "hits" (samples r) = Some (mk_sample (Some 3)).
Proof.
  intros σ self.
  destruct (X13_collect_reports_every_real_metric [] self σ (λ _, 5) 0 "hits"
              [("code", "200")] 0) as (records & Hcol & _ & Hc).
  - apply (bool_decide_unpack _). vm_compute. exact I.
  - apply (bool_decide_unpack _). vm_compute. exact I.
  - exists records. split; [by rewrite Hcol|].
    apply Hc; [by left|].
    intros h [Hin|Hin]%elem_of_cons; [discriminate|].
    apply list_elem_of_singleton in Hin. by simplify_eq.
Defined.

Lemma elem_of_dict_keys_set {K V} `{EqDecision K} (d : dict K V) k v x :
  x ∈ dict_keys (dict_set k v d) ↔ x = k ∨ x ∈ dict_keys d.
Proof.
  rewrite dict_keys_set. unfold dict_mem.
  destruct (dict_get k d) as [v0|] eqn:Hg.
  - split; [auto|]. intros [->|?]; [|done].
    apply dict_get_Some_In in Hg. apply list_elem_of_fmap. by exists (k, v0).
  - rewrite elem_of_app, list_elem_of_singleton. tauto.
Qed.

Lemma add_samples_keys (σ : heap) (d : dict key handle) : ∀ acc lk,
  lk ∈ dict_keys (fold_left (MetricsSet.add_sample σ) d acc)
  ↔ lk ∈ dict_keys acc ∨ ∃ name h, ((name, lk), h) ∈ d ∧ h ≠ noop_metric.
Proof.
  induction d as [|[[name' lk'] h'] d IH]; intros acc lk; simpl.
  - split; [auto|]. intros [?|(name & h & Hin & _)]; [done|].
    by apply elem_of_nil in Hin.
  - rewrite IH. destruct h' as [|l]; simpl.
    + split.
      * intros [?|(name & h & Hin & Hh)]; [auto|].
        right. exists name, h. split; [by right|done].
      * intros [?|(name & h & Hin & Hh)]; [auto|].
        apply elem_of_cons in Hin as [?|Hin]; [by simplify_eq|].
        right. by exists name, h.
    + rewrite elem_of_dict_keys_set. split.
      * intros [[->|?]|(name & h & Hin & Hh)]; [|auto|].
        -- right. exists name', (Ref l). split; [by left|done].
        -- right. exists name, h. split; [by right|done].
      * intros [?|(name & h & Hin & Hh)]; [auto|].
        apply elem_of_cons in Hin as [?|Hin]; [simplify_eq; auto|].
        right. by exists name, h.
Qed.

Lemma add_samples_nonempty (σ : heap) (d : dict key handle) : ∀ acc : groups,
  Forall (λ g, g.2 ≠ []) acc →
  Forall (λ g, g.2 ≠ []) (fold_left (MetricsSet.add_sample σ) d acc).
Proof.
  induction d as [|[[name lk] h] d IH]; intros acc Hacc; [done|].
  simpl. apply IH. destruct h as [|l]; simpl; [done|].
  apply Forall_forall. intros g Hg.
  apply elem_of_dict_set in Hg as [->|Hg].
  - simpl. by destruct (default [] (dict_get lk acc)) as [|[k v] rest];
      simpl; [|destruct (decide (name = k))].
  - by apply (proj1 (Forall_forall _ _) Hacc).
Qed.

Lemma untagged_records timestamp (G : groups) :
  NoDup (dict_keys G) →
  (length (filter (λ r, tags r = None) (MetricsSet.make_result timestamp <$> G)) ≤ 1)%nat.
Proof.
  assert (Hnone : ∀ G' : groups, [] ∉ dict_keys G' →
    filter (λ r, tags r = None) (MetricsSet.make_result timestamp <$> G') = []).
  { induction G' as [|[lk g] G' IH]; intros Hnot; [done|].
    apply not_elem_of_cons in Hnot as [Hne Hnot]. simpl in Hne. csimpl.
    rewrite filter_cons_False; [by apply IH|].
    unfold MetricsSet.make_result; simpl. by destruct lk. }
  induction G as [|[lk g] G IH]; intros Hnd; [simpl; lia|].
  apply NoDup_cons in Hnd as [Hlk Hnd]. csimpl. destruct lk as [|p lk].
  - rewrite filter_cons_True by done. rewrite Hnone by done. simpl. lia.
  - rewrite filter_cons_False by done. by apply IH.
Qed.

(** X14: [collect()] yields one record per label key in use: the label
    keys of the groups it builds are pairwise different, they are exactly
    the label keys under which a metric other than the no-op one is stored,
    and no record is without samples. *)
Theorem X14_one_record_per_label_key (pats : list pattern) (self : MetricsSet.t)
    (σ : heap) (time : clock) (n : nat) :
  ∃ G : groups,
    MetricsSet.collect MetricsSet.before_collect pats self σ time n
    = (Ok (MetricsSet.make_result (time n) <$> G), self, σ, S n) ∧
    NoDup (dict_keys G) ∧
    (∀ lk, lk ∈ dict_keys G ↔
       ∃ name h, ((name, lk), h) ∈ MetricsSet._counters self ++ MetricsSet._gauges self ∧
                 h ≠ noop_metric) ∧
    Forall (λ r, samples r ≠ []) (MetricsSet.make_result (time n) <$> G).
Proof.
  exists (MetricsSet.collect_samples self σ). split_and!.
  - apply collect_base.
  - apply collect_samples_wf.
  - intros lk. unfold MetricsSet.collect_samples. rewrite !add_samples_keys. split.
    + intros [[Hnil|(name & h & Hin & Hh)]|(name & h & Hin & Hh)].
      * by apply elem_of_nil in Hnil.
      * exists name, h. split; [apply elem_of_app; by left|done].
      * exists name, h. split; [apply elem_of_app; by right|done].
    + intros (name & h & [Hin|Hin]%elem_of_app & Hh); [left; right|right]; eauto.
  - apply Forall_fmap. unfold MetricsSet.collect_samples.
    do 2 apply add_samples_nonempty. constructor.
Qed.

(** X15: among the records of one [collect()] call at most one has no
    [tags]: the record of the metrics without labels; and all the records
    carry the timestamp read in that call. *)
Theorem X15_at_most_one_untagged_record (pats : list pattern) (self : MetricsSet.t)
    (σ : heap) (time : clock) (n : nat) (records : list record)
    (Hcollect : (MetricsSet.collect MetricsSet.before_collect pats self σ time n).1.1.1
                = Ok records) :
  (length (filter (λ r, tags r = None) records) ≤ 1)%nat ∧
  Forall (λ r, timestamp r = time n) records.
Proof.
  rewrite collect_base in Hcollect. cbn [fst] in Hcollect. simplify_eq. split.
  - apply untagged_records, collect_samples_wf.
  - apply Forall_fmap, Forall_forall. by intros [lk g] _.
Qed.

Lemma X15_witness :
  let σ := [OCounter (Counter.mk "hits" 0 3); OGauge (Gauge.mk "load" (Some 7))] in
  let self := MetricsSet.mk [(("hits", []), Ref 0)] [(("load", [("cpu", "0")]), Ref 1)] in
  let records := [mk_record [("hits", mk_sample (Some 3))] 5 None;
                  mk_record [("load", mk_sample (Some 7))] 5 (Some [("cpu", "0")])] in
  (MetricsSet.collect MetricsSet.before_collect [] self σ (λ _, 5) 0).1.1.1 = Ok records ∧
  (length (filter (λ r, tags r = None) records) ≤ 1)%nat ∧
  Forall (λ r, timestamp r = 5) records.
Proof.
  intros σ self records. split; [reflexivity|].
  exact (X15_at_most_one_untagged_record [] self σ (λ _, 5) 0 records eq_refl).
Defined.

(** ** The registry, continued *)

Lemma forward_world records w :
  MetricsRegistry.forward records w
  = mk_world (w_heap w) (w_ticks w) (w_log w)
      (w_queue w ++ ((λ r, (METRICSET, r)) <$> records)).
Proof.
  revert w. induction records as [|r records IH]; intros [σ n lg q]; simpl.
  - by rewrite app_nil_r.
  - unfold MetricsRegistry.forward in IH. rewrite IH. simpl. by rewrite <- app_assoc.
Qed.

(** X16: registering an identifier that is not registered yet and whose
    class resolves and instantiates stores exactly that instance under the
    identifier, after the sets registered before, which stay as they were;
    nothing is logged or queued, and the ignore patterns and tags of the
    registry are not changed. *)
Theorem X16_register_adds_the_instance
    (import_string : string → result MetricsSetClass)
    (self : MetricsRegistry.t) (class_path : string) (w : world)
    (class_obj : MetricsSetClass) (ms : MetricsSet.t) (σ' : heap)
    (Hnew : dict_mem class_path (MetricsRegistry._metricsets self) = false)
    (Hresolve : import_string class_path = Ok class_obj)
    (Hinit : cls_init class_obj (MetricsRegistry._ignore_patterns self) (w_heap w)
             = (Ok ms, σ')) :
  let res := MetricsRegistry.register import_string self class_path w in
  res.1.1 = Ok tt ∧
  MetricsRegistry._metricsets res.1.2
  = MetricsRegistry._metricsets self ++ [(class_path, mk_obj class_obj ms)] ∧
  dict_get class_path (MetricsRegistry._metricsets res.1.2) = Some (mk_obj class_obj ms) ∧
  (∀ other, other ≠ class_path →
     dict_get other (MetricsRegistry._metricsets res.1.2)
     = dict_get other (MetricsRegistry._metricsets self)) ∧
  MetricsRegistry._ignore_patterns res.1.2 = MetricsRegistry._ignore_patterns self ∧
  MetricsRegistry._tags res.1.2 = MetricsRegistry._tags self ∧
  res.2 = set_heap σ' w.
Proof.
  unfold MetricsRegistry.register, MetricsRegistry.register_try.
  rewrite Hnew, Hresolve, Hinit. cbn.
  assert (Hnotin : class_path ∉ dict_keys (MetricsRegistry._metricsets self)).
  { apply dict_get_None_notin. unfold dict_mem in Hnew.
    by destruct (dict_get class_path (MetricsRegistry._metricsets self)). }
  split_and!; try done.
  - by apply dict_keys_set_notin.
  - apply dict_get_set_eq.
  - intros other Hne. by apply dict_get_set_ne.
Qed.

Lemma X16_witness :
  let import_string := λ _ : string, Ok MetricsSet_class in
  let registry := MetricsRegistry.__init__ None None in
  let res := MetricsRegistry.register import_string registry "elasticapm.metrics.sets.cpu.CPUMetricSet"
               (mk_world [] 0 [] []) in
  res.1.1 = Ok tt ∧
  MetricsRegistry._metricsets res.1.2
  = [("elasticapm.metrics.sets.cpu.CPUMetricSet", mk_obj MetricsSet_class MetricsSet.__init__)].
Proof.
  intros import_string registry res.
  destruct (X16_register_adds_the_instance import_string registry
              "elasticapm.metrics.sets.cpu.CPUMetricSet" (mk_world [] 0 [] [])
              MetricsSet_class MetricsSet.__init__ [] eq_refl eq_refl eq_refl)
    as (H1 & H2 & _).
  split; [exact H1|exact H2].
Defined.

(** X17: registration is idempotent.  Once an identifier is registered,
    registering it again changes nothing, logs nothing and does not consult
    the lookup at all: the outcome is the same whatever the lookup would
    return or raise by then. *)
Theorem X17_register_twice_is_register_once
    (import_string import_string' : string → result MetricsSetClass)
    (self : MetricsRegistry.t) (class_path : string) (w : world)
    (class_obj : MetricsSetClass) (ms : MetricsSet.t) (σ' : heap)
    (Hresolve : import_string class_path = Ok class_obj)
    (Hinit : cls_init class_obj (MetricsRegistry._ignore_patterns self) (w_heap w)
             = (Ok ms, σ')) :
  let res := MetricsRegistry.register import_string self class_path w in
  MetricsRegistry.register import_string' res.1.2 class_path res.2 = (Ok tt, res.1.2, res.2).
Proof.
  intros res.
  assert (Hmem' : dict_mem class_path (MetricsRegistry._metricsets res.1.2) = true).
  { unfold res, MetricsRegistry.register, MetricsRegistry.register_try.
    destruct (dict_mem class_path (MetricsRegistry._metricsets self)) eqn:Hmem; [done|].
    rewrite Hresolve, Hinit. cbn. unfold dict_mem. by rewrite dict_get_set_eq. }
  unfold MetricsRegistry.register at 1. by rewrite Hmem'.
Qed.

Lemma X17_witness :
  let import_string := λ _ : string, Ok MetricsSet_class in
  let broken := λ _ : string, Raise (A := MetricsSetClass) (Exception "gone") in
  let res := MetricsRegistry.register import_string (MetricsRegistry.__init__ None None)
               "app.Metrics" (mk_world [] 0 [] []) in
  MetricsRegistry.register broken res.1.2 "app.Metrics" res.2 = (Ok tt, res.1.2, res.2).
Proof.
  intros import_string broken res.
  exact (X17_register_twice_is_register_once import_string broken
           (MetricsRegistry.__init__ None None) "app.Metrics" (mk_world [] 0 [] [])
           MetricsSet_class MetricsSet.__init__ [] eq_refl eq_refl).
Defined.

Lemma register_metricsets import_string self class_path w :
  let res := MetricsRegistry.register import_string self class_path w in
  (MetricsRegistry._metricsets res.1.2 = MetricsRegistry._metricsets self ∨
   ∃ o, dict_mem class_path (MetricsRegistry._metricsets self) = false ∧
        MetricsRegistry._metricsets res.1.2
        = dict_set class_path o (MetricsRegistry._metricsets self)) ∧
  MetricsRegistry._ignore_patterns res.1.2 = MetricsRegistry._ignore_patterns self ∧
  MetricsRegistry._tags res.1.2 = MetricsRegistry._tags self.
Proof.
  unfold MetricsRegistry.register, MetricsRegistry.register_try.
  destruct (dict_mem class_path (MetricsRegistry._metricsets self)) eqn:Hmem; [auto|].
  destruct (import_string class_path) as [cls|[]]; cbn; auto.
  destruct (cls_init cls _ _) as [[ms|[]] σ']; cbn; auto.
  split_and!; try done. right. eauto.
Qed.

(** X18: registering never removes, replaces or duplicates a metric set:
    whatever the outcome of a [register] call, the sets registered before
    are still registered, the identifiers stay pairwise different, and at
    most the identifier of the call is new; the ignore patterns and tags
    are never changed. *)
Theorem X18_register_keeps_identifiers_unique
    (import_string : string → result MetricsSetClass)
    (self : MetricsRegistry.t) (class_path : string) (w : world)
    (Hunique : NoDup (dict_keys (MetricsRegistry._metricsets self))) :
  let res := MetricsRegistry.register import_string self class_path w in
  NoDup (dict_keys (MetricsRegistry._metricsets res.1.2)) ∧
  (∀ p o, dict_get p (MetricsRegistry._metricsets self) = Some o →
          dict_get p (MetricsRegistry._metricsets res.1.2) = Some o) ∧
  (∀ p, p ∈ dict_keys (MetricsRegistry._metricsets res.1.2) →
        p = class_path ∨ p ∈ dict_keys (MetricsRegistry._metricsets self)) ∧
  MetricsRegistry._ignore_patterns res.1.2 = MetricsRegistry._ignore_patterns self ∧
  MetricsRegistry._tags res.1.2 = MetricsRegistry._tags self.
Proof.
  intros res.
  destruct (register_metricsets import_string self class_path w)
    as ([Hsame|(o & Hmem & Hset)] & Hpats & Htags); fold res in Hsame || fold res in Hset.
  - rewrite Hsame. split_and!; auto.
  - rewrite Hset. split_and!; try done.
    + by apply dict_set_NoDup.
    + intros p o' Hp. rewrite dict_get_set_ne; [done|].
      intros ->. unfold dict_mem in Hmem. by rewrite Hp in Hmem.
    + intros p Hp. by apply elem_of_dict_keys_set in Hp.
Qed.

Lemma X18_witness :
  let import_string := λ path : string,
    if String.prefix "app." path then Ok MetricsSet_class
    else Raise (ImportError "no such module") in
  let r0 := MetricsRegistry.__init__ None None in
  let res1 := MetricsRegistry.register import_string r0 "app.A" (mk_world [] 0 [] []) in
  let res2 := MetricsRegistry.register import_string res1.1.2 "lib.B" res1.2 in
  NoDup (dict_keys (MetricsRegistry._metricsets res2.1.2)) ∧
  dict_keys (MetricsRegistry._metricsets res2.1.2) = ["app.A"].
Proof.
  intros import_string r0 res1 res2. split; [|reflexivity].
  assert (H0 : NoDup (dict_keys (MetricsRegistry._metricsets r0))) by constructor.
  pose proof (proj1 (X18_register_keeps_identifiers_unique import_string r0 "app.A"
                       (mk_world [] 0 [] []) H0)) as H1.
  exact (proj1 (X18_register_keeps_identifiers_unique import_string res1.1.2 "lib.B"
                  res1.2 H1)).
Defined.

Lemma collect_one_ticks hook pats self (σ : heap) time n :
  let res := MetricsSet.collect hook pats self σ time n in
  (n ≤ res.2 ≤ S n)%nat.
Proof.
  unfold MetricsSet.collect.
  destruct (hook pats self σ) as [[[u|e] self'] σ']; simpl; lia.
Qed.

Lemma collect_loop_appends time pats items : ∀ w,
  let res := MetricsRegistry.collect_loop time pats items w in
  (∃ events, w_queue res.2 = w_queue w ++ events ∧ Forall (λ e, e.1 = METRICSET) events) ∧
  (w_ticks w ≤ w_ticks res.2 ≤ w_ticks w + length items)%nat.
Proof.
  induction items as [|[name ms] items IH]; intros w; simpl.
  { split; [exists []; by rewrite app_nil_r|lia]. }
  pose proof (collect_one_ticks (cls_before_collect (ms_class ms)) pats (ms_self ms)
                (w_heap w) time (w_ticks w)) as Hticks.
  destruct (MetricsSet.collect _ _ _ _ _ _) as [[[[records|e] self'] σ'] n'];
    simpl in Hticks.
  - specialize (IH (MetricsRegistry.forward records (set_ticks n' (set_heap σ' w)))).
    destruct (MetricsRegistry.collect_loop _ _ _ _) as [[r rest'] w'].
    rewrite forward_world in IH. simpl in *.
    destruct IH as [(events & Hq & Hall) Ht]. split; [|lia].
    exists (((λ r, (METRICSET, r)) <$> records) ++ events). split.
    + by rewrite Hq, app_assoc.
    + apply Forall_app. split; [|done]. apply Forall_fmap. by apply Forall_true.
  - simpl. split; [exists []; by rewrite app_nil_r|lia].
Qed.

(** X20: a collection cycle only appends to the queue: whatever happens,
    the events queued before are still there in the same order, every event
    added is a "metricset" event, exactly one record is logged (the debug
    line at the start), and the clock is read at most once per registered
    set. *)
Theorem X20_collect_only_appends_metricset_events (time : clock)
    (self : MetricsRegistry.t) (w : world) :
  let res := MetricsRegistry.collect time self w in
  (∃ events, w_queue res.2 = w_queue w ++ events ∧
             Forall (λ e, e.1 = METRICSET) events) ∧
  w_log res.2 = w_log w ++ [(DEBUG, "Collecting metrics")] ∧
  (w_ticks w ≤ w_ticks res.2 ≤ w_ticks w + length (MetricsRegistry._metricsets self))%nat.
Proof.
  unfold MetricsRegistry.collect.
  pose proof (collect_loop_appends time (MetricsRegistry._ignore_patterns self)
                (MetricsRegistry._metricsets self)
                (logger DEBUG "Collecting metrics" w)) as [Hq Ht].
  pose proof (collect_loop_log time (MetricsRegistry._ignore_patterns self)
                (MetricsRegistry._metricsets self)
                (logger DEBUG "Collecting metrics" w)) as Hlog.
  destruct (MetricsRegistry.collect_loop _ _ _ _) as [[r sets] w'].
  by cbn in *.
Qed.

Lemma collect_loop_plain time pats items : ∀ w,
  Forall plain items →
  MetricsRegistry.collect_loop time pats items w
  = (Ok tt, items,
     mk_world (w_heap w) (w_ticks w + length items) (w_log w)
       (w_queue w ++
        mjoin (imap (λ i, events_of (time (w_ticks w + i)%nat) (w_heap w)) items))).
Proof.
  induction items as [|[name [cls ms]] items IH]; intros [σ n lg q] Hplain.
  { simpl. by rewrite Nat.add_0_r, app_nil_r. }
  apply Forall_cons in Hplain as [Hhook Hplain]. unfold plain in Hhook.
  cbn in Hhook. cbn [MetricsRegistry.collect_loop ms_class ms_self w_heap w_ticks].
  rewrite Hhook, collect_base, forward_world, (IH _ Hplain).
  cbn [w_heap w_ticks w_log w_queue set_heap set_ticks].
  rewrite imap_cons. cbn [mjoin list_join length].
  rewrite Nat.add_0_r, <- app_assoc.
  f_equal. f_equal; [lia|]. do 3 f_equal.
  apply imap_ext. intros i e _. cbn. do 2 f_equal. lia.
Qed.

(** X21: in a cycle that runs without other threads changing the metric
    sets and with a queue function that returns normally, when no metric
    set overrides [before_collect], [collect] returns normally, changes
    neither the registry nor the store, and hands the queue function the
    records of the sets in the order in which the sets are stored in the
    registry, each set with its own reading of the clock. *)
Theorem X21_collect_of_plain_sets (time : clock) (self : MetricsRegistry.t) (w : world)
    (Hplain : Forall plain (MetricsRegistry._metricsets self)) :
  MetricsRegistry.collect time self w
  = (Ok tt, self,
     mk_world (w_heap w)
       (w_ticks w + length (MetricsRegistry._metricsets self))
       (w_log w ++ [(DEBUG, "Collecting metrics")])
       (w_queue w ++
        mjoin (imap (λ i, events_of (time (w_ticks w + i)%nat) (w_heap w))
                 (MetricsRegistry._metricsets self)))).
Proof.
  unfold MetricsRegistry.collect. rewrite collect_loop_plain by done.
  by destruct self.
Qed.

Lemma X21_witness :
  let σ := [OCounter (Counter.mk "hits" 0 3); OGauge (Gauge.mk "load" (Some 7))] in
  let a := mk_obj MetricsSet_class (MetricsSet.mk [(("hits", []), Ref 0)] []) in
  let b := mk_obj MetricsSet_class (MetricsSet.mk [] [(("load", [("cpu", "0")]), Ref 1)]) in
  let registry := MetricsRegistry.mk [("app.A", a); ("app.B", b)] [] [] in
  let res := MetricsRegistry.collect (λ n, 1000 + Z.of_nat n) registry (mk_world σ 4 [] []) in
  res.1.1 = Ok tt ∧
  w_queue res.2
  = [(METRICSET, mk_record [("hits", mk_sample (Some 3))] 1004 None);
     (METRICSET, mk_record [("load", mk_sample (Some 7))] 1005 (Some [("cpu", "0")]))].
Proof.
  intros σ a b registry res.
  assert (Hplain : Forall plain (MetricsRegistry._metricsets registry))
    by (repeat constructor).
  unfold res.
  rewrite (X21_collect_of_plain_sets (λ n, 1000 + Z.of_nat n) registry
             (mk_world σ 4 [] []) Hplain).
  split; reflexivity.
Defined.

Lemma sum_replicate_inc (k : nat) :
  sum_inc (replicate k (Inc 1)) = Z.of_nat k ∧ sum_dec (replicate k (Inc 1)) = 0.
Proof. induction k as [|k [IH1 IH2]]; simpl; split; lia. Qed.

(** X22: the whole path.  On a registry without metric sets, register the
    base class under an identifier, get from that set the counter of a name
    that is not ignored, without labels, increment it [k] times, and run a
    collection cycle: the queue function receives exactly one "metricset"
    event, whose samples are the name with value [k], whose timestamp is
    the clock reading of the cycle, and which has no tags. *)
Theorem X22_register_count_collect
    (import_string : string → result MetricsSetClass) (time : clock)
    (self : MetricsRegistry.t) (w : world) (class_path name : string) (k : nat)
    (Hempty : MetricsRegistry._metricsets self = [])
    (Hresolve : import_string class_path = Ok MetricsSet_class)
    (Hname : MetricsSet.ignored (MetricsRegistry._ignore_patterns self) name = false) :
  let reg := MetricsRegistry.register import_string self class_path w in
  let c := MetricsSet.counter (MetricsRegistry._ignore_patterns self)
             MetricsSet.__init__ name [] (w_heap reg.2) in
  let σ := run_ops c.1.1 (replicate k (Inc 1)) c.2 in
  let registry := MetricsRegistry.set_metricsets
                    [(class_path, mk_obj MetricsSet_class c.1.2)] reg.1.2 in
  let res := MetricsRegistry.collect time registry (set_heap σ reg.2) in
  reg.1.1 = Ok tt ∧
  MetricsRegistry._metricsets reg.1.2
  = [(class_path, mk_obj MetricsSet_class MetricsSet.__init__)] ∧
  res.1.1 = Ok tt ∧
  w_queue res.2
  = w_queue w ++
    [(METRICSET, mk_record [(name, mk_sample (Some (Z.of_nat k)))] (time (w_ticks w)) None)].
Proof.
  destruct self as [sets tags pats]. cbn in Hempty, Hname. subst sets.
  intros reg c σ registry res.
  assert (Hreg : reg = (Ok tt,
            MetricsRegistry.mk [(class_path, mk_obj MetricsSet_class MetricsSet.__init__)]
              tags pats, w)).
  { unfold reg, MetricsRegistry.register, MetricsRegistry.register_try.
    cbn. rewrite Hresolve. cbn. by destruct w. }
  assert (Hc : c = (Ref (length (w_heap w)),
                    MetricsSet.mk [((name, []), Ref (length (w_heap w)))] [],
                    w_heap w ++ [OCounter (Counter.mk name 0 0)])).
  { unfold c, MetricsSet.counter. rewrite Hreg.
    change (MetricsSet._labels_to_key []) with (@nil (string * string)).
    cbn [dict_get MetricsSet._counters MetricsSet.__init__ fst snd
         MetricsRegistry._ignore_patterns]. by rewrite Hname. }
  assert (Hσ : val (Ref (length (w_heap w))) σ = Some (Z.of_nat k)).
  { unfold σ. rewrite Hc. cbn [fst snd].
    erewrite run_ops_counter by apply list_lookup_middle, eq_refl.
    erewrite val_counter
      by (apply list_lookup_insert_eq; rewrite length_app; simpl; lia).
    rewrite fold_apply_op_val.
    destruct (sum_replicate_inc k) as [-> ->].
    unfold Counter.val; simpl. f_equal. lia. }
  assert (Hres : res = (Ok tt, registry,
            mk_world σ (S (w_ticks w)) (w_log w ++ [(DEBUG, "Collecting metrics")])
              (w_queue w ++ [(METRICSET,
                 mk_record [(name, mk_sample (Some (Z.of_nat k)))] (time (w_ticks w)) None)]))).
  { unfold res, registry, MetricsRegistry.collect, MetricsRegistry.set_metricsets.
    rewrite Hreg, Hc.
    cbn -[val σ]. by rewrite Hσ. }
  rewrite Hres, Hreg. by cbn.
Qed.

Lemma X22_witness :
  let import_string := λ _ : string, Ok MetricsSet_class in
  let w := mk_world [] 0 [] [] in
  let reg := MetricsRegistry.register import_string (MetricsRegistry.__init__ None None)
               "app.Requests" w in
  let c := MetricsSet.counter [] MetricsSet.__init__ "requests.count" [] (w_heap reg.2) in
  let σ := run_ops c.1.1 [Inc 1; Inc 1; Inc 1] c.2 in
  let registry := MetricsRegistry.set_metricsets
                    [("app.Requests", mk_obj MetricsSet_class c.1.2)] reg.1.2 in
  w_queue (MetricsRegistry.collect (λ _, 1700000000000000) registry (set_heap σ reg.2)).2
  = [(METRICSET, mk_record [("requests.count", mk_sample (Some 3))] 1700000000000000 None)].
Proof.
  intros import_string w reg c σ registry.
  destruct (X22_register_count_collect import_string (λ _, 1700000000000000)
              (MetricsRegistry.__init__ None None) w "app.Requests" "requests.count" 3
              eq_refl eq_refl eq_refl) as (_ & _ & _ & H).
  exact H.
Defined.

(** ** The collect timer *)

Lemma start_collect_timer_effect self timeout p :
  let res := MetricsRegistryTimer._start_collect_timer self timeout p in
  let timer := mk_timer (MetricsRegistryTimer.timeout_or timeout
                           (MetricsRegistryTimer._collect_interval self))
                 "eapm metrics collect timer" true true false in
  res.1 = MetricsRegistryTimer.mk (MetricsRegistryTimer._collect_interval self)
            (Some (length (p_timers p))) ∧
  p_timers res.2 = p_timers p ++ [timer] ∧
  p_log res.2 = p_log p ++ [(DEBUG, "Starting metrics collect timer")] ∧
  p_postfork res.2 = p_postfork p ∧
  running res.2 = running p ++ [timer].
Proof.
  unfold MetricsRegistryTimer._start_collect_timer. cbn [fst snd p_timers p_log p_postfork].
  assert (Halter : ∀ (ts : list IntervalTimer) t,
            alter timer_start (length ts) (ts ++ [t]) = ts ++ [timer_start t]).
  { intros ts t. induction ts as [|t0 ts IH]; [done|]. simpl. by rewrite <- IH. }
  rewrite Halter. split_and!; try done.
  unfold running. cbn [p_timers]. rewrite filter_app. f_equal.
Qed.

(** X23: the timer part of the constructor.  With a collect interval of 0
    nothing is started and nothing is deferred.  With another interval, in a
    process that is not a pre-fork master, one daemon timer with that
    interval is created and started at once.  In a pre-fork master no timer
    is created, and exactly one post-fork callback is registered; when that
    callback runs, it creates and starts the timer with the interval. *)
Theorem X23_timer_starts_now_or_after_fork (collect_interval : Z) (p : process) :
  let res := MetricsRegistryTimer.__init__ collect_interval p in
  let timer := mk_timer collect_interval "eapm metrics collect timer" true true false in
  (collect_interval = 0 →
     res = (MetricsRegistryTimer.mk 0 None, p)) ∧
  (collect_interval ≠ 0 → p_master p = false →
     MetricsRegistryTimer._collect_timer res.1 = Some (length (p_timers p)) ∧
     p_timers res.2 = p_timers p ++ [timer] ∧
     running res.2 = running p ++ [timer] ∧
     p_postfork res.2 = p_postfork p) ∧
  (collect_interval ≠ 0 → p_master p = true →
     MetricsRegistryTimer._collect_timer res.1 = None ∧
     p_timers res.2 = p_timers p ∧ p_log res.2 = p_log p ∧
     p_postfork res.2 = S (p_postfork p) ∧
     let forked := MetricsRegistryTimer.postfork_callback res.1 res.2 in
     MetricsRegistryTimer._collect_timer forked.1 = Some (length (p_timers p)) ∧
     running forked.2 = running p ++ [timer]).
Proof.
  unfold MetricsRegistryTimer.__init__. split_and!.
  - intros ->. by rewrite decide_True.
  - intros Hne Hm. rewrite decide_False, Hm by done.
    destruct (start_collect_timer_effect
                (MetricsRegistryTimer.mk collect_interval None) None p)
      as (H1 & H2 & _ & H4 & H5).
    rewrite H1. by split_and!.
  - intros Hne Hm. rewrite decide_False by done.
    destruct p as [m k ts lg]. cbn in Hm. subst m. cbn [p_master p_postfork p_timers p_log].
    set (p' := mk_process true (S k) ts lg).
    destruct (start_collect_timer_effect
                (MetricsRegistryTimer.mk collect_interval None) None p')
      as (H1 & _ & _ & _ & H5).
    unfold MetricsRegistryTimer.postfork_callback. cbn [fst snd] in *.
    rewrite H1. by split_and!.
Qed.

Lemma X23_witness :
  let master := mk_process true 0 [] [] in
  let res := MetricsRegistryTimer.__init__ 30 master in
  MetricsRegistryTimer._collect_timer res.1 = None ∧ p_postfork res.2 = 1%nat ∧
  running (MetricsRegistryTimer.postfork_callback res.1 res.2).2
  = [mk_timer 30 "eapm metrics collect timer" true true false].
Proof.
  intros master res.
  destruct (X23_timer_starts_now_or_after_fork 30 master) as (_ & _ & H).
  destruct H as (H1 & _ & _ & H4 & _ & H6); [done|done|].
  split_and!; [exact H1|exact H4|exact H6].
Defined.

(** X24: stopping.  [_stop_collect_timer] on a registry that never
    started a timer does nothing and logs nothing.  On a registry with a
    timer it cancels that timer and no other, so that timer is no longer
    running; the registry keeps its reference to the cancelled timer, and a
    second stop leaves the timers as they are. *)
Theorem X24_stop_cancels_only_the_own_timer (self : MetricsRegistryTimer.t) (p : process) :
  let res := MetricsRegistryTimer._stop_collect_timer self p in
  res.1 = self ∧
  (MetricsRegistryTimer._collect_timer self = None → res.2 = p) ∧
  (∀ l t, MetricsRegistryTimer._collect_timer self = Some l → p_timers p !! l = Some t →
     p_timers res.2 !! l = Some (timer_cancel t) ∧
     (timer_cancel t ∉ running res.2) ∧
     (∀ l', l' ≠ l → p_timers res.2 !! l' = p_timers p !! l') ∧
     p_timers (MetricsRegistryTimer._stop_collect_timer res.1 res.2).2 = p_timers res.2).
Proof.
  unfold MetricsRegistryTimer._stop_collect_timer.
  destruct (MetricsRegistryTimer._collect_timer self) as [l0|] eqn:Htimer;
    cbn [fst snd]; [|by split_and!].
  split_and!; [done|done|].
  intros l t [= ->] Hl. rewrite Htimer. cbn [snd p_timers].
  split; [|split; [|split]].
  - rewrite list_lookup_alter_eq. by rewrite Hl.
  - unfold running. rewrite list_elem_of_filter. by intros [[_ ?] _].
  - intros l' Hne. by apply list_lookup_alter_ne.
  - apply list_eq. intros i. destruct (decide (i = l)) as [->|Hne].
    + rewrite !list_lookup_alter_eq, Hl. done.
    + by rewrite list_lookup_alter_ne.
Qed.

Lemma X24_witness :
  let started := MetricsRegistryTimer.__init__ 30 (mk_process false 0 [] []) in
  let res := MetricsRegistryTimer._stop_collect_timer started.1 started.2 in
  running started.2 = [mk_timer 30 "eapm metrics collect timer" true true false] ∧
  p_timers res.2 !! 0%nat = Some (mk_timer 30 "eapm metrics collect timer" true true true) ∧
  running res.2 = [].
Proof.
  intros started res.
  destruct (X24_stop_cancels_only_the_own_timer started.1 started.2) as (_ & _ & H).
  destruct (H 0%nat (mk_timer 30 "eapm metrics collect timer" true true false)
              eq_refl eq_refl) as (H1 & _).
  split_and!; [reflexivity|exact H1|reflexivity].
Defined.

(** X25: [_start_collect_timer(timeout)] uses [timeout] as the interval
    unless it is absent or 0, in which case it uses the collect interval.
    Every call creates and starts a new timer and makes it the registry's
    timer; it never cancels a timer started before, which keeps running. *)
Theorem X25_start_uses_timeout_or_interval (self : MetricsRegistryTimer.t)
    (timeout : option Z) (p : process) :
  let res := MetricsRegistryTimer._start_collect_timer self timeout p in
  let interval := match timeout with
                  | Some t => if decide (t = 0) then MetricsRegistryTimer._collect_interval self else t
                  | None => MetricsRegistryTimer._collect_interval self
                  end in
  let timer := mk_timer interval "eapm metrics collect timer" true true false in
  MetricsRegistryTimer._collect_timer res.1 = Some (length (p_timers p)) ∧
  MetricsRegistryTimer._collect_interval res.1 = MetricsRegistryTimer._collect_interval self ∧
  p_timers res.2 = p_timers p ++ [timer] ∧
  running res.2 = running p ++ [timer] ∧
  (∀ l t, p_timers p !! l = Some t → p_timers res.2 !! l = Some t).
Proof.
  intros res interval timer.
  destruct (start_collect_timer_effect self timeout p) as (H1 & H2 & _ & _ & H5).
  fold res in H1, H2, H5. rewrite H1. split_and!; try done.
  intros l t Hl. rewrite H2. by apply lookup_app_l_Some.
Qed.
